(** * InMemoryRepository: a class-scoped, inheritance-aware object store

    Shallow embedding of [dharma/domain/repos/in_memory.py].

    The two class attributes [_REGISTERS] and [_SUPER_KLASSES_WITH_REPO] are
    process-wide mutable state shared by every store instance; they form the
    [state] threaded through every operation.  A Python exception is a
    [Raise] result; mutations performed before the exception is raised stay
    in the state, as they do in Python.

    What the embedding takes for granted:
    - object ids are integers ([get_id : Callable[[T], int]]) and the id
      extractor returns for every object;
    - [assert] statements are executed (the interpreter does not run with
      [-O]);
    - a [Predicate] that is passed to [count] is truthy, and returns a
      boolean on every object;
    - the methods of the base class do not touch the two registries, which
      the subclass declares. *)

From Stdlib Require Import ZArith Lia.
From stdpp Require Import base option list gmap strings fin_maps.

Open Scope Z_scope.
Open Scope string_scope.

(** ** Python's insertion-ordered [dict]

    A bucket ([{instance_id: instance}]) is a Python [dict]: iteration
    ([values()]) follows insertion order, assigning to an existing key keeps
    its position, [pop] removes the entry.  It is modelled as an association
    list whose keys are pairwise distinct. *)

Module PyDict.
Section ops.
Context {K V : Type} `{EqDecision K}.

(** [d[k]]; [None] stands for the [KeyError]. *)
Fixpoint getitem (k : K) (d : list (K * V)) : option V :=
  match d with
  | [] => None
  | (k', v) :: d' => if decide (k = k') then Some v else getitem k d'
  end.

(** [k in d] *)
Definition contains (k : K) (d : list (K * V)) : bool :=
  match getitem k d with
  | Some _ => true
  | None => false
  end.

(** [d[k] = v] *)
Fixpoint setitem (k : K) (v : V) (d : list (K * V)) : list (K * V) :=
  match d with
  | [] => [(k, v)]
  | (k', v') :: d' =>
      if decide (k = k') then (k', v) :: d' else (k', v') :: setitem k v d'
  end.

(** What is left of [d] when the entry of [k] goes; [d] itself when there is
    none. *)
Definition delitem (k : K) (d : list (K * V)) : list (K * V) :=
  List.filter (fun kv => negb (bool_decide (k = fst kv))) d.

(** [d.pop(k)]: the removed value and the remaining dict; [None] stands for
    the [KeyError]. *)
Definition pop (k : K) (d : list (K * V)) : option (V * list (K * V)) :=
  match getitem k d with
  | Some v => Some (v, delitem k d)
  | None => None
  end.

(** [d.values()], [len(d)] *)
Definition values (d : list (K * V)) : list V := map snd d.
Definition len (d : list (K * V)) : Z := Z.of_nat (length d).

End ops.
End PyDict.

(** ** Classes

    The store only looks at a class through [get_dotted_path(klass)] and
    [klass.mro()].  A class is therefore its dotted path together with its
    linearised strict ancestors (most derived first, as [mro()] lists them
    after the class itself). *)

#[warnings="-register-all"]
Inductive klass : Type :=
  Klass { dotted_path : string; ancestors : list klass }.

(** Modelled from the spec: [dharma.utils.imports.get_dotted_path], which is
    not among the sources -- "a qualified-name resolver (Class) -> ClassId",
    the class identifier being "a stable string uniquely identifying a
    class, derived from its fully-qualified name". *)
Definition get_dotted_path (k : klass) : string := dotted_path k.

(** [klass.mro()]: Python's linearisation always starts with the class
    itself. *)
Definition mro (k : klass) : list klass := k :: ancestors k.

(** ** Exceptions *)

(** An argument substituted for a [{}] of a message template. *)
Inductive fmt_arg :=
| ArgStr (s : string)            (* a string, here always a class path *)
| ArgId (id_ : Z)                (* an object id *)
| ArgBuiltinId                   (* Python's builtin function [id] *)
| ArgRepo (klass_qualname : string). (* [self], shown through [__repr__] *)

(** [template.format(args)], kept symbolic. *)
Record message := format { template : string; args : list fmt_arg }.

Definition _NO_REPOSITORY_MSG : string := "No repository for {} has been found".
Definition _NOT_FOUND_MSG : string := "Id '{}' in {} hasn't been found".

Inductive exception :=
| NotFound (msg : message)       (* InMemoryRepository.NotFound *)
| AssertionError (msg : string)
| KeyError (key : fmt_arg)
| OtherError (name : string).    (* anything else a base pre-check raises *)

(** The class of an exception, as [except] clauses test it. *)
Inductive exception_class :=
| NotFoundClass
| AssertionErrorClass
| KeyErrorClass
| OtherClass (name : string).

Definition class_of (e : exception) : exception_class :=
  match e with
  | NotFound _ => NotFoundClass
  | AssertionError _ => AssertionErrorClass
  | KeyError _ => KeyErrorClass
  | OtherError name => OtherClass name
  end.

#[global] Instance exception_class_eq_dec : EqDecision exception_class.
Proof. solve_decision. Defined.

Inductive result (A : Type) :=
| Return (a : A)
| Raise (e : exception).
Arguments Return {A} a.
Arguments Raise {A} e.

Definition is_Return {A} (r : result A) : bool :=
  match r with
  | Return _ => true
  | Raise _ => false
  end.

(** ** The shared state and the store handle *)

Section Model.
Context {T : Type}.

(** [_REGISTERS : {klass_qualname: {instance_id: instance}}] and
    [_SUPER_KLASSES_WITH_REPO : {klass_qualname: [list, of, its, super-repos]}] *)
Record state := State {
  _REGISTERS : gmap string (list (Z * T));
  _SUPER_KLASSES_WITH_REPO : gmap string (list string)
}.

(** A store instance: what [__init__] leaves on [self].  The factory is not
    used by any operation of this file. *)
Record InMemoryRepository := Repo {
  _klass : klass;
  _klass_qualname : string;
  _get_id : T -> Z
}.

(** The state monad with exceptions. *)
Definition M (A : Type) : Type := state -> result A * state.

Definition ret {A} (a : A) : M A := fun s => (Return a, s).
Definition raise {A} (e : exception) : M A := fun s => (Raise e, s).
Definition bind {A B} (m : M A) (f : A -> M B) : M B :=
  fun s =>
    match m s with
    | (Return a, s') => f a s'
    | (Raise e, s') => (Raise e, s')
    end.

(** [try: body except KeyError: handler] *)
Definition except_KeyError {A} (body : M A) (handler : M A) : M A :=
  fun s =>
    match body s with
    | (Raise (KeyError _), s') => handler s'
    | r => r
    end.

End Model.

Arguments state : clear implicits.
Arguments InMemoryRepository : clear implicits.
Arguments M : clear implicits.

Declare Scope py_scope.
Delimit Scope py_scope with py.
Notation "'let!' x ':=' m 'in' k" := (bind m (fun x => k))
  (at level 10, x name, m at level 100, k at level 200) : py_scope.
Notation "m '>>' k" := (bind m (fun _ => k))
  (at level 100, k at level 200, right associativity) : py_scope.
Open Scope py_scope.

(** ** The base contract

    [BaseRepository] ([.base]) is the abstract contract the store extends; it
    is not among the sources and stays a parameter.  [insert], [update] and
    [batch_update] first call the base method of the same name and propagate
    whatever it raises; the base class knows nothing of the two registries,
    so each call is a check on its arguments: [None] when it returns,
    [Some e] when it raises [e]. *)

Class BaseRepository (T : Type) := {
  super_insert : InMemoryRepository T -> T -> option exception;
  super_update : InMemoryRepository T -> T -> option exception;
  super_batch_update : InMemoryRepository T -> list T -> option exception
}.

Section Operations.
Context {T : Type} `{BaseRepository T}.

(** Runs a base-contract call. *)
Definition call_super (check : option exception) : M T unit :=
  match check with
  | None => ret tt
  | Some e => raise e
  end.

(** [self._REGISTERS[klass_qualname]] *)
Definition registers_getitem (klass_qualname : string) : M T (list (Z * T)) :=
  fun s =>
    match _REGISTERS s !! klass_qualname with
    | Some klass_register => (Return klass_register, s)
    | None => (Raise (KeyError (ArgStr klass_qualname)), s)
    end.

(** [self._REGISTERS[klass_qualname] = bucket]; also the write through a
    bucket fetched from the registry, which mutates it in place. *)
Definition registers_setitem (klass_qualname : string) (bucket : list (Z * T))
  : M T unit :=
  fun s =>
    (Return tt,
     State (<[klass_qualname := bucket]> (_REGISTERS s))
           (_SUPER_KLASSES_WITH_REPO s)).

(** [self._REGISTERS[klass_qualname].pop(id_)] *)
Definition bucket_pop (klass_qualname : string) (id_ : Z) : M T T :=
  let! bucket := registers_getitem klass_qualname in
  match PyDict.pop id_ bucket with
  | Some (obj, bucket') => registers_setitem klass_qualname bucket' >> ret obj
  | None => raise (KeyError (ArgId id_))
  end.

(** [self._SUPER_KLASSES_WITH_REPO[klass_qualname]]: the index is a
    [defaultdict(list)], so reading a missing key stores and returns []. *)
Definition super_klasses_getitem (klass_qualname : string) : M T (list string) :=
  fun s =>
    match _SUPER_KLASSES_WITH_REPO s !! klass_qualname with
    | Some supers => (Return supers, s)
    | None =>
        (Return [],
         State (_REGISTERS s)
               (<[klass_qualname := []]> (_SUPER_KLASSES_WITH_REPO s)))
    end.

(** [_find_super_repos] *)
Definition _find_super_repos (klass_qualname : string) (k : klass) (s : state T)
  : list string :=
  match _SUPER_KLASSES_WITH_REPO s !! klass_qualname with
  | Some supers => supers
  | None =>
      map get_dotted_path
        (List.filter
           (fun k' => bool_decide (is_Some (_REGISTERS s !! get_dotted_path k')))
           (mro k))
  end.

(** [__init__]: the handle and the state it leaves. *)
Definition __init__ (k : klass) (get_id : T -> Z) (s : state T)
  : InMemoryRepository T * state T :=
  let self := Repo k (get_dotted_path k) get_id in
  let q := _klass_qualname self in
  let s1 :=
    match _SUPER_KLASSES_WITH_REPO s !! q with
    | Some _ => s
    | None =>
        State (_REGISTERS s)
              (<[q := _find_super_repos q k s]> (_SUPER_KLASSES_WITH_REPO s))
    end in
  let s2 :=
    match _REGISTERS s1 !! q with
    | Some _ => s1
    | None => State (<[q := []]> (_REGISTERS s1)) (_SUPER_KLASSES_WITH_REPO s1)
    end in
  (self, s2).

(** [_clear_all_repos]: every bucket is emptied, the keys stay. *)
Definition _clear_all_repos (s : state T) : state T :=
  State ((fun _ => []) <$> _REGISTERS s) (_SUPER_KLASSES_WITH_REPO s).

(** [register_klass] *)
Definition register_klass (k : klass) (s : state T) : klass * state T :=
  (k, State (<[get_dotted_path k := []]> (_REGISTERS s))
            (_SUPER_KLASSES_WITH_REPO s)).

Definition no_repository (self : InMemoryRepository T) : exception :=
  NotFound (format _NO_REPOSITORY_MSG [ArgStr (_klass_qualname self)]).

(** [get]: the second message formats the builtin [id], not [id_]. *)
Definition get (self : InMemoryRepository T) (id_ : Z) : M T T :=
  let! klass_register :=
    except_KeyError (registers_getitem (_klass_qualname self))
                    (raise (no_repository self)) in
  match PyDict.getitem id_ klass_register with
  | Some obj => ret obj
  | None =>
      raise (NotFound (format _NOT_FOUND_MSG
                         [ArgBuiltinId; ArgRepo (_klass_qualname self)]))
  end.

Definition get_or_none (self : InMemoryRepository T) (id_ : Z) : M T (option T) :=
  except_KeyError
    (let! klass_register := registers_getitem (_klass_qualname self) in
     ret (PyDict.getitem id_ klass_register))
    (raise (no_repository self)).

Definition all (self : InMemoryRepository T) : M T (list T) :=
  except_KeyError
    (let! klass_register := registers_getitem (_klass_qualname self) in
     ret (PyDict.values klass_register))
    (raise (no_repository self)).

Definition exists_ (self : InMemoryRepository T) (id_ : Z) : M T bool :=
  except_KeyError
    (let! klass_register := registers_getitem (_klass_qualname self) in
     ret (PyDict.contains id_ klass_register))
    (raise (no_repository self)).

Definition filter (self : InMemoryRepository T) (predicate : T -> bool)
  : M T (list T) :=
  let! klass_register :=
    except_KeyError (registers_getitem (_klass_qualname self))
                    (raise (no_repository self)) in
  ret (List.filter predicate (PyDict.values klass_register)).

(** [count]: [predicate=None] is the omitted predicate; a predicate that is
    given is taken to be truthy. *)
Definition count (self : InMemoryRepository T) (predicate : option (T -> bool))
  : M T Z :=
  match predicate with
  | None =>
      let! klass_register :=
        except_KeyError (registers_getitem (_klass_qualname self))
                        (raise (no_repository self)) in
      ret (PyDict.len klass_register)
  | Some p =>
      let! filtered := filter self p in
      ret (Z.of_nat (length filtered))
  end.

(** The loop of [insert] over the super-repos of the class: the assertion,
    then the write into the ancestor's bucket.  A listed class without a
    bucket makes [self._REGISTERS[super_klass_qualname]] raise [KeyError]. *)
Fixpoint insert_fan_out (id_ : Z) (obj : T) (supers : list string) : M T unit :=
  match supers with
  | [] => ret tt
  | super_klass_qualname :: rest =>
      let! super_register := registers_getitem super_klass_qualname in
      if PyDict.contains id_ super_register
      then raise (AssertionError "Id conflict in super repos")
      else
        registers_setitem super_klass_qualname
          (PyDict.setitem id_ obj super_register) >>
        insert_fan_out id_ obj rest
  end.

Definition insert (self : InMemoryRepository T) (obj : T) : M T bool :=
  call_super (super_insert self obj) >>
  let! klass_register :=
    except_KeyError (registers_getitem (_klass_qualname self))
                    (raise (no_repository self)) in
  let id_ := _get_id self obj in
  registers_setitem (_klass_qualname self)
    (PyDict.setitem id_ obj klass_register) >>
  let! supers := super_klasses_getitem (_klass_qualname self) in
  insert_fan_out id_ obj supers >>
  ret true.

Definition update (self : InMemoryRepository T) (obj : T) : M T bool :=
  call_super (super_update self obj) >>
  let! klass_register :=
    except_KeyError (registers_getitem (_klass_qualname self))
                    (raise (no_repository self)) in
  registers_setitem (_klass_qualname self)
    (PyDict.setitem (_get_id self obj) obj klass_register) >>
  ret true.

(** Modelled from the spec: [dharma.utils.operators.error_catcher], which is
    not among the sources -- "a generic error-wrapping helper that calls a
    function and converts a specified subset of failure kinds into a per-item
    success/failure outcome".  The call succeeds: the outcome is [True]; it
    raises an exception of one of [error_classes]: the outcome is [False];
    any other exception goes through. *)
Definition error_catcher {A B} (error_classes : list exception_class)
    (function : A -> M T B) (arg : A) : M T bool :=
  fun s =>
    match function arg s with
    | (Return _, s') => (Return true, s')
    | (Raise e, s') =>
        if bool_decide (class_of e ∈ error_classes)
        then (Return false, s')
        else (Raise e, s')
    end.

(** [error_classes = (AssertionError, self.NotFound)] *)
Definition error_classes : list exception_class :=
  [AssertionErrorClass; NotFoundClass].

(** The dict comprehension of [batch_update], one object at a time: the key,
    then the value, then the entry of the result. *)
Fixpoint batch_update_items (self : InMemoryRepository T) (objs : list T)
    (acc : list (Z * bool)) : M T (list (Z * bool)) :=
  match objs with
  | [] => ret acc
  | obj :: rest =>
      let key := _get_id self obj in
      let! value := error_catcher error_classes (insert self) obj in
      batch_update_items self rest (PyDict.setitem key value acc)
  end.

Definition batch_update (self : InMemoryRepository T) (objs : list T)
  : M T (list (Z * bool)) :=
  call_super (super_batch_update self objs) >>
  batch_update_items self objs [].

Definition not_found (self : InMemoryRepository T) (id_ : Z) : exception :=
  NotFound (format _NOT_FOUND_MSG [ArgId id_; ArgRepo (_klass_qualname self)]).

Definition remove (self : InMemoryRepository T) (obj : T) : M T unit :=
  let id_ := _get_id self obj in
  except_KeyError
    (bucket_pop (_klass_qualname self) id_ >> ret tt)
    (raise (not_found self id_)).

Definition pop (self : InMemoryRepository T) (id_ : Z) : M T T :=
  except_KeyError
    (bucket_pop (_klass_qualname self) id_)
    (raise (not_found self id_)).

End Operations.

(** ** Histories of calls

    What a program can do to the shared state: construct stores, register
    classes, clear the buckets and call the mutating operations through any
    handle.  The queries ([get], [get_or_none], [all], [exists], [count],
    [filter]) leave the state as it is. *)

Inductive command (T : Type) :=
| Construct (k : klass) (get_id : T -> Z)
| RegisterKlass (k : klass)
| ClearAllRepos
| Insert (self : InMemoryRepository T) (obj : T)
| Update (self : InMemoryRepository T) (obj : T)
| BatchUpdate (self : InMemoryRepository T) (objs : list T)
| Remove (self : InMemoryRepository T) (obj : T)
| Pop (self : InMemoryRepository T) (id_ : Z).
Arguments Construct {T} k get_id.
Arguments RegisterKlass {T} k.
Arguments ClearAllRepos {T}.
Arguments Insert {T} self obj.
Arguments Update {T} self obj.
Arguments BatchUpdate {T} self objs.
Arguments Remove {T} self obj.
Arguments Pop {T} self id_.

Section Histories.
Context {T : Type} `{BaseRepository T}.

Definition exec (c : command T) (s : state T) : state T :=
  match c with
  | Construct k get_id => snd (__init__ k get_id s)
  | RegisterKlass k => snd (register_klass k s)
  | ClearAllRepos => _clear_all_repos s
  | Insert self obj => snd (insert self obj s)
  | Update self obj => snd (update self obj s)
  | BatchUpdate self objs => snd (batch_update self objs s)
  | Remove self obj => snd (remove self obj s)
  | Pop self id_ => snd (pop self id_ s)
  end.

Definition run (cs : list (command T)) (s : state T) : state T :=
  fold_left (fun s c => exec c s) cs s.

(** The state of a fresh process: both class attributes are empty. *)
Definition initial_state : state T := State ∅ ∅.

(** Every class listed in the superclass index has a bucket. *)
Definition supers_registered (s : state T) : Prop :=
  forall q supers q',
    _SUPER_KLASSES_WITH_REPO s !! q = Some supers ->
    In q' supers ->
    is_Some (_REGISTERS s !! q').

(** The super-repos [insert] iterates over: the index entry, [[]] when the
    [defaultdict] has none. *)
Definition supers_of (q : string) (s : state T) : list string :=
  default [] (_SUPER_KLASSES_WITH_REPO s !! q).

(** [id_] is held by the bucket of class [q]. *)
Definition in_bucket (q : string) (id_ : Z) (s : state T) : Prop :=
  exists bucket,
    _REGISTERS s !! q = Some bucket /\ PyDict.contains id_ bucket = true.

(** The outcome is a value, or an exception [batch_update] catches. *)
Definition caught_or_returned {A} (r : result A) : Prop :=
  match r with
  | Return _ => True
  | Raise e => class_of e ∈ error_classes
  end.

(** What the entry of [id_] is in the bucket of [q]: [None] without a bucket,
    [Some None] without an entry. *)
Definition entry (q : string) (id_ : Z) (s : state T) : option (option T) :=
  PyDict.getitem id_ <$> _REGISTERS s !! q.

(** From [s] to [s'] nothing changed but, at most, the entry of [id_] in the
    bucket of class [q]: the superclass index is the same, every other
    bucket is the same, and so is every other entry of the bucket of [q]. *)
Definition touches_only (q : string) (id_ : Z) (s s' : state T) : Prop :=
  _SUPER_KLASSES_WITH_REPO s' = _SUPER_KLASSES_WITH_REPO s /\
  (forall q', q' <> q -> _REGISTERS s' !! q' = _REGISTERS s !! q') /\
  (forall id', id' <> id_ -> entry q id' s' = entry q id' s).

(** The ids of every bucket are pairwise distinct, as the keys of a [dict]
    are. *)
Definition distinct_ids (s : state T) : Prop :=
  forall q bucket,
    _REGISTERS s !! q = Some bucket -> NoDup (map fst bucket).

End Histories.

(** ** A small zoo, for the examples *)

Record animal := { animal_id : Z; animal_name : string }.

(** A base contract whose checks let everything through. *)
#[global] Instance permissive_base : BaseRepository animal := {
  super_insert _ _ := None;
  super_update _ _ := None;
  super_batch_update _ _ := None
}.

Definition object_ : klass := Klass "builtins.object" [].
Definition Animal : klass := Klass "zoo.Animal" [object_].
Definition Dog : klass := Klass "zoo.Dog" [Animal; object_].

Definition rex : animal := {| animal_id := 1; animal_name := "Rex" |}.
Definition fido : animal := {| animal_id := 1; animal_name := "Fido" |}.
Definition laika : animal := {| animal_id := 2; animal_name := "Laika" |}.

(** A store for [Animal] is constructed in a fresh process, then one for
    [Dog]. *)
Definition zoo_state : state animal :=
  snd (__init__ Dog animal_id (snd (__init__ Animal animal_id initial_state))).
Definition dog_store : InMemoryRepository animal :=
  fst (__init__ Dog animal_id zoo_state).
Definition animal_store : InMemoryRepository animal :=
  fst (__init__ Animal animal_id zoo_state).

(** The zoo after [fido] (id 1), or [laika] (id 2), went in through the
    store of [Animal]: the bucket of [Animal] holds the id, the bucket of
    [Dog] does not. *)
Definition zoo_with_fido : state animal :=
  snd (insert animal_store fido zoo_state).
Definition zoo_with_laika : state animal :=
  snd (insert animal_store laika zoo_state).

(** [Animal] is registered with [register_klass] instead, then the store for
    [Dog] is constructed, then one for [Animal]. *)
Definition registered_zoo_state : state animal :=
  snd (__init__ Animal animal_id
         (snd (__init__ Dog animal_id
                 (snd (register_klass Animal initial_state))))).

(** [Dog] is registered with [register_klass] first, then a store for it is
    constructed. *)
Definition registered_dog_state : state animal :=
  snd (__init__ Dog animal_id (snd (register_klass Dog initial_state))).
Definition registered_dog_store : InMemoryRepository animal :=
  fst (__init__ Dog animal_id (snd (register_klass Dog initial_state))).

(** * Facts about the model *)

(** ** Python dicts *)

Section PyDictFacts.
Context {K V : Type} `{EqDecision K}.
Implicit Types (k : K) (v : V) (d : list (K * V)).

Lemma pydict_getitem_setitem_eq k v d :
  PyDict.getitem k (PyDict.setitem k v d) = Some v.
Proof.
  induction d as [|[k' v'] d IH]; simpl.
  - by rewrite decide_True.
  - destruct (decide (k = k')) as [->|Hne]; simpl.
    + by rewrite decide_True.
    + by rewrite decide_False.
Qed.

Lemma pydict_getitem_setitem_ne k k' v d :
  k <> k' -> PyDict.getitem k' (PyDict.setitem k v d) = PyDict.getitem k' d.
Proof.
  intros Hne. induction d as [|[k0 v0] d IH]; simpl.
  - by rewrite decide_False.
  - destruct (decide (k = k0)) as [->|Hk]; simpl.
    + by rewrite !decide_False.
    + by rewrite IH.
Qed.

Lemma pydict_getitem_setitem k k' v d :
  PyDict.getitem k' (PyDict.setitem k v d)
  = if decide (k = k') then Some v else PyDict.getitem k' d.
Proof.
  case_decide as Hk.
  - subst. apply pydict_getitem_setitem_eq.
  - by apply pydict_getitem_setitem_ne.
Qed.




Lemma pydict_getitem_delitem_ne k k' d :
  k <> k' -> PyDict.getitem k' (PyDict.delitem k d) = PyDict.getitem k' d.
Proof.
  intros Hne. induction d as [|[k0 v0] d IH]; simpl; [done|].
  destruct (decide (k = k0)) as [->|Hk].
  - rewrite bool_decide_eq_true_2 by done. simpl. by rewrite decide_False.
  - rewrite bool_decide_eq_false_2 by done. simpl. by rewrite IH.
Qed.

Lemma pydict_getitem_delitem_eq k d :
  PyDict.getitem k (PyDict.delitem k d) = None.
Proof.
  induction d as [|[k0 v0] d IH]; simpl; [done|].
  destruct (decide (k = k0)) as [->|Hk].
  - by rewrite bool_decide_eq_true_2.
  - rewrite bool_decide_eq_false_2 by done. simpl. by rewrite decide_False.
Qed.

Lemma pydict_getitem_In_values k v d :
  PyDict.getitem k d = Some v -> In v (PyDict.values d).
Proof.
  induction d as [|[k' v'] d IH]; simpl; [done|].
  case_decide; [intros [= ->]; by left | intros; right; by apply IH].
Qed.

Lemma pydict_contains_getitem k d :
  PyDict.contains k d = true <-> is_Some (PyDict.getitem k d).
Proof.
  unfold PyDict.contains. destruct (PyDict.getitem k d); split; done.
Qed.

Lemma pydict_contains_false k d :
  PyDict.contains k d = false <-> PyDict.getitem k d = None.
Proof. unfold PyDict.contains. by destruct (PyDict.getitem k d). Qed.

End PyDictFacts.

(** ** The operations, unfolded *)

Ltac unfold_monad :=
  unfold call_super, except_KeyError, registers_getitem, registers_setitem,
    super_klasses_getitem, bind, ret, raise in *.

Section StoreFacts.
Context {T : Type} `{BaseRepository T}.
Implicit Types (self : InMemoryRepository T) (obj : T) (s : state T)
  (q : string) (k : Z).

(** The state [insert] hands to its loop: own bucket written, index entry
    of the class present. *)
Lemma insert_unfold self obj s :
  insert self obj s =
    match super_insert self obj with
    | Some e => (Raise e, s)
    | None =>
        match _REGISTERS s !! _klass_qualname self with
        | None => (Raise (no_repository self), s)
        | Some bucket =>
            let s1 :=
              State (<[_klass_qualname self :=
                         PyDict.setitem (_get_id self obj) obj bucket]>
                       (_REGISTERS s))
                    (match _SUPER_KLASSES_WITH_REPO s !! _klass_qualname self with
                     | Some _ => _SUPER_KLASSES_WITH_REPO s
                     | None => <[_klass_qualname self := []]>
                                 (_SUPER_KLASSES_WITH_REPO s)
                     end) in
            match insert_fan_out (_get_id self obj) obj
                    (supers_of (_klass_qualname self) s) s1 with
            | (Return _, s') => (Return true, s')
            | (Raise e, s') => (Raise e, s')
            end
        end
    end.
Proof.
  unfold insert, supers_of. unfold_monad.
  destruct (super_insert self obj) as [e|]; [done|].
  destruct (_REGISTERS s !! _klass_qualname self) as [bucket|]; [|done].
  simpl.
  destruct (_SUPER_KLASSES_WITH_REPO s !! _klass_qualname self) as [l|]; simpl.
  - by destruct (insert_fan_out _ _ _ _) as [[[]|e] s'].
  - by destruct s.
Qed.

Lemma insert_fan_out_cons k obj q rest s :
  insert_fan_out k obj (q :: rest) s =
    match _REGISTERS s !! q with
    | None => (Raise (KeyError (ArgStr q)), s)
    | Some bucket =>
        if PyDict.contains k bucket
        then (Raise (AssertionError "Id conflict in super repos"), s)
        else insert_fan_out k obj rest
               (State (<[q := PyDict.setitem k obj bucket]> (_REGISTERS s))
                      (_SUPER_KLASSES_WITH_REPO s))
    end.
Proof.
  simpl. unfold_monad.
  destruct (_REGISTERS s !! q) as [bucket|]; [|done].
  by destruct (PyDict.contains k bucket).
Qed.

(** ** Entries of buckets *)

Lemma entry_Some q k s o :
  entry q k s = Some o <->
  exists bucket, _REGISTERS s !! q = Some bucket /\ PyDict.getitem k bucket = o.
Proof.
  unfold entry. destruct (_REGISTERS s !! q) as [b|]; simpl; split.
  - intros [= <-]. eauto.
  - intros (b' & [= <-] & <-). done.
  - done.
  - by intros (b' & ? & _).
Qed.

Lemma entry_None q k s : entry q k s = None <-> _REGISTERS s !! q = None.
Proof. unfold entry. by destruct (_REGISTERS s !! q). Qed.

Lemma entry_is_Some q k s : is_Some (entry q k s) <-> is_Some (_REGISTERS s !! q).
Proof. unfold entry. by rewrite fmap_is_Some. Qed.

(** One write [_REGISTERS[q0][k] = obj]. *)
Lemma entry_write q0 k obj bucket sup s q k' :
  _REGISTERS s !! q0 = Some bucket ->
  entry q k' (State (<[q0 := PyDict.setitem k obj bucket]> (_REGISTERS s)) sup)
  = if decide (q = q0 /\ k' = k) then Some (Some obj) else entry q k' s.
Proof.
  intros Hb. unfold entry. simpl.
  destruct (decide (q = q0)) as [->|Hq].
  - rewrite lookup_insert_eq, Hb. simpl.
    rewrite pydict_getitem_setitem.
    destruct (decide (k = k')) as [->|Hk].
    + by rewrite decide_True.
    + rewrite decide_False; [done|]. intros [_ ?]. congruence.
  - rewrite lookup_insert_ne by done.
    rewrite decide_False; [done|]. tauto.
Qed.

(** The loop leaves the superclass index alone. *)
Lemma insert_fan_out_index k obj supers s :
  _SUPER_KLASSES_WITH_REPO (snd (insert_fan_out k obj supers s))
  = _SUPER_KLASSES_WITH_REPO s.
Proof.
  revert s. induction supers as [|q rest IH]; intros s; [done|].
  rewrite insert_fan_out_cons.
  destruct (_REGISTERS s !! q) as [bucket|]; [|done].
  destruct (PyDict.contains k bucket); [done|].
  by rewrite IH.
Qed.

(** The loop only ever writes [obj] under [k], into buckets that exist. *)
Lemma insert_fan_out_entry k obj supers s q k' :
  entry q k' (snd (insert_fan_out k obj supers s)) = entry q k' s \/
  (k' = k /\ is_Some (entry q k' s) /\
   entry q k' (snd (insert_fan_out k obj supers s)) = Some (Some obj)).
Proof.
  revert s. induction supers as [|q0 rest IH]; intros s; [by left|].
  rewrite insert_fan_out_cons.
  destruct (_REGISTERS s !! q0) as [bucket|] eqn:Hb; [|by left].
  destruct (PyDict.contains k bucket); [by left|].
  set (s1 := State _ _).
  assert (Hw : entry q k' s1
               = if decide (q = q0 /\ k' = k) then Some (Some obj)
                 else entry q k' s) by by apply entry_write.
  destruct (IH s1) as [Heq|(-> & Hsome & Heq)].
  - rewrite Heq, Hw. case_decide as Hd; [|by left].
    destruct Hd as [-> ->]. right. split; [done|]. split; [|done].
    apply entry_is_Some. by rewrite Hb.
  - right. split; [done|]. split; [|done].
    rewrite Hw in Hsome. case_decide as Hd; [|done].
    destruct Hd as [-> _]. apply entry_is_Some. by rewrite Hb.
Qed.

(** When the loop completes, every listed bucket holds [obj] under [k]. *)
Lemma insert_fan_out_written k obj supers s s' :
  insert_fan_out k obj supers s = (Return tt, s') ->
  Forall (fun q => entry q k s' = Some (Some obj)) supers.
Proof.
  revert s. induction supers as [|q0 rest IH]; intros s; [constructor|].
  rewrite insert_fan_out_cons.
  destruct (_REGISTERS s !! q0) as [bucket|] eqn:Hb; [|done].
  destruct (PyDict.contains k bucket); [done|].
  set (s1 := State _ _). intros Hrun. constructor; [|by eapply IH].
  assert (Hw : entry q0 k s1 = Some (Some obj)).
  { unfold s1. rewrite entry_write by done. by rewrite decide_True. }
  pose proof (insert_fan_out_entry k obj rest s1 q0 k) as Hent.
  rewrite Hrun in Hent. simpl in Hent.
  destruct Hent as [->|(_ & _ & ->)]; done.
Qed.

Lemma in_bucket_entry q k s :
  in_bucket q k s <-> exists o, entry q k s = Some (Some o).
Proof.
  unfold in_bucket. split.
  - intros (b & Hb & Hc). apply pydict_contains_getitem in Hc as [o Ho].
    exists o. apply entry_Some. eauto.
  - intros (o & Ho). apply entry_Some in Ho as (b & Hb & Hg).
    exists b. split; [done|]. apply pydict_contains_getitem. by rewrite Hg.
Qed.

Lemma in_bucket_write q0 k obj bucket sup s q k' :
  _REGISTERS s !! q0 = Some bucket ->
  in_bucket q k' s ->
  in_bucket q k'
    (State (<[q0 := PyDict.setitem k obj bucket]> (_REGISTERS s)) sup).
Proof.
  intros Hb. rewrite !in_bucket_entry. intros [o Ho].
  rewrite entry_write by done. case_decide; eauto.
Qed.

Lemma registered_write q0 (bucket : list (Z * T))
    (registers : gmap string (list (Z * T))) q :
  is_Some (registers !! q) ->
  is_Some (<[q0 := bucket]> registers !! q).
Proof.
  intros Hq. destruct (decide (q = q0)) as [->|Hne].
  - rewrite lookup_insert_eq. by eexists.
  - by rewrite lookup_insert_ne.
Qed.

(** The assertion of the loop: an id held by a listed bucket, whatever the
    object it holds there, stops the loop. *)
Lemma insert_fan_out_conflict k obj supers s :
  Forall (fun q => is_Some (_REGISTERS s !! q)) supers ->
  Exists (fun q => in_bucket q k s) supers ->
  fst (insert_fan_out k obj supers s)
  = Raise (AssertionError "Id conflict in super repos").
Proof.
  revert s. induction supers as [|q0 rest IH]; intros s Hreg Hex.
  { by apply Exists_nil in Hex. }
  apply Forall_cons in Hreg as [[bucket Hb] Hreg].
  rewrite insert_fan_out_cons, Hb.
  destruct (PyDict.contains k bucket) eqn:Hc; [done|].
  apply IH.
  - eapply Forall_impl; [exact Hreg|]. intros q Hq. simpl. by apply registered_write.
  - apply Exists_cons in Hex as [(b' & Hb' & Hc')|Hex]; [congruence|].
    eapply Exists_impl; [exact Hex|]. intros q Hq. by apply in_bucket_write.
Qed.

(** The loop completes when the listed classes are pairwise distinct and
    each has a bucket without [k]. *)
Lemma insert_fan_out_ok k obj supers s :
  NoDup supers ->
  Forall (fun q => entry q k s = Some None) supers ->
  fst (insert_fan_out k obj supers s) = Return tt.
Proof.
  revert s. induction supers as [|q0 rest IH]; intros s Hnd Hfree; [done|].
  apply NoDup_cons in Hnd as [Hq0 Hnd].
  apply Forall_cons in Hfree as [Hq0free Hfree].
  apply entry_Some in Hq0free as (bucket & Hb & Hg).
  rewrite insert_fan_out_cons, Hb.
  replace (PyDict.contains k bucket) with false
    by (symmetry; by apply pydict_contains_false).
  apply IH; [done|].
  apply Forall_forall. intros q Hq.
  rewrite entry_write by done.
  rewrite decide_False; [by eapply Forall_forall in Hfree|].
  intros [-> _]. by apply Hq0.
Qed.

(** The loop for [k] reads and writes entries of [k] only. *)
Lemma insert_fan_out_cong k obj supers s1 s2 :
  (forall q, entry q k s1 = entry q k s2) ->
  fst (insert_fan_out k obj supers s1) = fst (insert_fan_out k obj supers s2) /\
  forall q, entry q k (snd (insert_fan_out k obj supers s1))
          = entry q k (snd (insert_fan_out k obj supers s2)).
Proof.
  revert s1 s2. induction supers as [|q0 rest IH]; intros s1 s2 Hs; [done|].
  rewrite !insert_fan_out_cons.
  pose proof (Hs q0) as Hq0.
  destruct (_REGISTERS s1 !! q0) as [b1|] eqn:Hb1.
  - assert (entry q0 k s1 = Some (PyDict.getitem k b1)) as He1
      by (apply entry_Some; eauto).
    rewrite He1 in Hq0. symmetry in Hq0.
    apply entry_Some in Hq0 as (b2 & Hb2 & Hg). rewrite Hb2.
    unfold PyDict.contains. rewrite Hg.
    destruct (PyDict.getitem k b1); [done|].
    apply IH. intros q. rewrite !entry_write by done.
    case_decide; [done|apply Hs].
  - assert (entry q0 k s1 = None) as He1 by by apply entry_None.
    rewrite He1 in Hq0. symmetry in Hq0. apply entry_None in Hq0.
    by rewrite Hq0.
Qed.

(** ** [insert] *)

Lemma insert_index_frozen self obj s q supers :
  _SUPER_KLASSES_WITH_REPO s !! q = Some supers ->
  _SUPER_KLASSES_WITH_REPO (snd (insert self obj s)) !! q = Some supers.
Proof.
  intros Hq. rewrite insert_unfold.
  destruct (super_insert self obj); [done|].
  destruct (_REGISTERS s !! _klass_qualname self) as [bucket|]; [|done].
  cbv zeta.
  set (s1 := State _ _).
  assert (_SUPER_KLASSES_WITH_REPO s1 !! q = Some supers) as Hs1.
  { unfold s1. simpl.
    destruct (_SUPER_KLASSES_WITH_REPO s !! _klass_qualname self) eqn:Hown;
      [done|].
    rewrite lookup_insert_ne; [done|]. intros Heq. subst q. congruence. }
  pose proof (insert_fan_out_index (_get_id self obj) obj
                (supers_of (_klass_qualname self) s) s1) as Hidx.
  destruct (insert_fan_out _ _ _ s1) as [[[]|e] s']; simpl in *; congruence.
Qed.

Lemma insert_supers_of self obj s q :
  supers_of q (snd (insert self obj s)) = supers_of q s.
Proof.
  unfold supers_of.
  destruct (_SUPER_KLASSES_WITH_REPO s !! q) as [l|] eqn:Hq.
  { by erewrite insert_index_frozen. }
  rewrite insert_unfold.
  destruct (super_insert self obj); [simpl; by rewrite Hq|].
  destruct (_REGISTERS s !! _klass_qualname self) as [bucket|];
    [|simpl; by rewrite Hq].
  cbv zeta.
  set (s1 := State _ _).
  assert (default [] (_SUPER_KLASSES_WITH_REPO s1 !! q) = []) as Hs1.
  { unfold s1. simpl.
    destruct (_SUPER_KLASSES_WITH_REPO s !! _klass_qualname self) eqn:Hown;
      [by rewrite Hq|].
    destruct (decide (q = _klass_qualname self)) as [->|Hne].
    - by rewrite lookup_insert_eq.
    - rewrite lookup_insert_ne by done. by rewrite Hq. }
  pose proof (insert_fan_out_index (_get_id self obj) obj
                (supers_of (_klass_qualname self) s) s1) as Hidx.
  destruct (insert_fan_out _ _ _ s1) as [[[]|e] s']; simpl in *;
    by rewrite Hidx.
Qed.

(** [insert] only ever writes [obj] under its id, into buckets that exist. *)
Lemma insert_entry self obj s q k :
  entry q k (snd (insert self obj s)) = entry q k s \/
  (k = _get_id self obj /\ is_Some (entry q k s) /\
   entry q k (snd (insert self obj s)) = Some (Some obj)).
Proof.
  rewrite insert_unfold.
  destruct (super_insert self obj); [by left|].
  destruct (_REGISTERS s !! _klass_qualname self) as [bucket|] eqn:Hb;
    [|by left].
  cbv zeta.
  set (s1 := State _ _).
  assert (Hw : entry q k s1
               = if decide (q = _klass_qualname self /\ k = _get_id self obj)
                 then Some (Some obj) else entry q k s) by by apply entry_write.
  pose proof (insert_fan_out_entry (_get_id self obj) obj
                (supers_of (_klass_qualname self) s) s1 q k) as Hent.
  assert (entry q k (snd (insert_fan_out (_get_id self obj) obj
                            (supers_of (_klass_qualname self) s) s1))
          = entry q k s \/
          (k = _get_id self obj /\ is_Some (entry q k s) /\
           entry q k (snd (insert_fan_out (_get_id self obj) obj
                             (supers_of (_klass_qualname self) s) s1))
           = Some (Some obj))) as Hgoal.
  { destruct Hent as [Heq|(-> & Hsome & Heq)].
    - rewrite Heq, Hw. case_decide as Hd; [|by left].
      destruct Hd as [-> ->]. right. split; [done|]. split; [|done].
      apply entry_is_Some. by rewrite Hb.
    - right. split; [done|]. split; [|done].
      rewrite Hw in Hsome. case_decide as Hd; [|done].
      destruct Hd as [-> _]. apply entry_is_Some. by rewrite Hb. }
  by destruct (insert_fan_out _ _ _ s1) as [[[]|e] s'].
Qed.

Lemma insert_entry_other self obj s q k :
  k <> _get_id self obj ->
  entry q k (snd (insert self obj s)) = entry q k s.
Proof.
  intros Hk. destruct (insert_entry self obj s q k) as [?|(? & _)]; done.
Qed.

Lemma insert_registered self obj s q :
  is_Some (_REGISTERS (snd (insert self obj s)) !! q) <->
  is_Some (_REGISTERS s !! q).
Proof.
  rewrite <- !(entry_is_Some q 0).
  destruct (insert_entry self obj s q 0) as [->|(_ & Hs & ->)]; [done|].
  split; [done|by eexists].
Qed.

Lemma insert_in_bucket self obj s q k :
  in_bucket q k s -> in_bucket q k (snd (insert self obj s)).
Proof.
  rewrite !in_bucket_entry. intros [o Ho].
  destruct (insert_entry self obj s q k) as [->|(_ & _ & ->)]; eauto.
Qed.

(** A completed [insert] leaves [obj] under its id in the bucket of the
    class and in every bucket the index lists. *)
Lemma insert_written self obj s s' :
  insert self obj s = (Return true, s') ->
  Forall (fun q => entry q (_get_id self obj) s' = Some (Some obj))
         (_klass_qualname self :: supers_of (_klass_qualname self) s).
Proof.
  rewrite insert_unfold.
  destruct (super_insert self obj); [done|].
  destruct (_REGISTERS s !! _klass_qualname self) as [bucket|] eqn:Hb; [|done].
  cbv zeta.
  set (s1 := State _ _).
  destruct (insert_fan_out _ _ _ s1) as [[[]|e] s2] eqn:Hrun; [|done].
  intros [= <-]. constructor; [|by eapply insert_fan_out_written].
  assert (Hw : entry (_klass_qualname self) (_get_id self obj) s1
               = Some (Some obj)).
  { unfold s1. rewrite entry_write by done. by rewrite decide_True. }
  pose proof (insert_fan_out_entry (_get_id self obj) obj
                (supers_of (_klass_qualname self) s) s1
                (_klass_qualname self) (_get_id self obj)) as Hent.
  rewrite Hrun in Hent. simpl in Hent.
  destruct Hent as [->|(_ & _ & ->)]; done.
Qed.

Lemma insert_fan_out_in_bucket k obj supers s q k' :
  in_bucket q k' s -> in_bucket q k' (snd (insert_fan_out k obj supers s)).
Proof.
  rewrite !in_bucket_entry. intros [o Ho].
  destruct (insert_fan_out_entry k obj supers s q k') as [->|(_ & _ & ->)];
    eauto.
Qed.

(** Whatever the outcome of the loop, the first listed bucket holds [k]
    afterwards. *)
Lemma insert_fan_out_head_held k obj q0 rest s :
  is_Some (_REGISTERS s !! q0) ->
  in_bucket q0 k (snd (insert_fan_out k obj (q0 :: rest) s)).
Proof.
  intros [bucket Hb]. rewrite insert_fan_out_cons, Hb.
  destruct (PyDict.contains k bucket) eqn:Hc.
  - simpl. by exists bucket.
  - apply insert_fan_out_in_bucket. apply in_bucket_entry. exists obj.
    rewrite entry_write by done. by rewrite decide_True.
Qed.

(** With every listed bucket present, the loop completes or fails its
    assertion. *)
Lemma insert_fan_out_outcome k obj supers s :
  Forall (fun q => is_Some (_REGISTERS s !! q)) supers ->
  fst (insert_fan_out k obj supers s) = Return tt \/
  fst (insert_fan_out k obj supers s)
  = Raise (AssertionError "Id conflict in super repos").
Proof.
  revert s. induction supers as [|q0 rest IH]; intros s Hreg; [by left|].
  apply Forall_cons in Hreg as [[bucket Hb] Hreg].
  rewrite insert_fan_out_cons, Hb.
  destruct (PyDict.contains k bucket); [by right|].
  apply IH. eapply Forall_impl; [exact Hreg|].
  intros q Hq. simpl. by apply registered_write.
Qed.

Lemma insert_conflict self obj s :
  super_insert self obj = None ->
  is_Some (_REGISTERS s !! _klass_qualname self) ->
  Forall (fun q => is_Some (_REGISTERS s !! q))
         (supers_of (_klass_qualname self) s) ->
  Exists (fun q => in_bucket q (_get_id self obj) s)
         (supers_of (_klass_qualname self) s) ->
  fst (insert self obj s) = Raise (AssertionError "Id conflict in super repos").
Proof.
  intros Hsuper [bucket Hb] Hreg Hex.
  rewrite insert_unfold, Hsuper, Hb. cbv zeta.
  set (s1 := State _ _).
  pose proof (insert_fan_out_conflict (_get_id self obj) obj
                (supers_of (_klass_qualname self) s) s1) as Hc.
  destruct (insert_fan_out _ _ _ s1) as [[[]|e] s2]; simpl in *.
  - exfalso. enough (Return tt = Raise (AssertionError "Id conflict in super repos")
                     :> result unit) by done.
    apply Hc.
    + eapply Forall_impl; [exact Hreg|]. intros q Hq. by apply registered_write.
    + eapply Exists_impl; [exact Hex|]. intros q Hq. unfold s1.
      by apply in_bucket_write.
  - enough (Raise e = Raise (AssertionError "Id conflict in super repos")
            :> result unit) as He by by injection He as ->.
    apply Hc.
    + eapply Forall_impl; [exact Hreg|]. intros q Hq. by apply registered_write.
    + eapply Exists_impl; [exact Hex|]. intros q Hq. unfold s1.
      by apply in_bucket_write.
Qed.

(** With the bucket of every listed class present and a base check that
    passes, [insert] returns [True] or raises one of the two exceptions
    [batch_update] catches. *)
Lemma insert_outcome self obj s :
  super_insert self obj = None ->
  Forall (fun q => is_Some (_REGISTERS s !! q))
         (supers_of (_klass_qualname self) s) ->
  fst (insert self obj s) = Return true \/
  fst (insert self obj s) = Raise (no_repository self) \/
  fst (insert self obj s) = Raise (AssertionError "Id conflict in super repos").
Proof.
  intros Hsuper Hreg. rewrite insert_unfold, Hsuper.
  destruct (_REGISTERS s !! _klass_qualname self) as [bucket|] eqn:Hb;
    [|by right; left].
  cbv zeta. set (s1 := State _ _).
  destruct (insert_fan_out_outcome (_get_id self obj) obj
              (supers_of (_klass_qualname self) s) s1) as [Hr|Hr].
  - eapply Forall_impl; [exact Hreg|]. intros q Hq. unfold s1. simpl.
    by apply registered_write.
  - destruct (insert_fan_out _ _ _ s1) as [[[]|e] s2]; simpl in *;
      [by left|done].
  - destruct (insert_fan_out _ _ _ s1) as [[[]|e] s2]; simpl in *;
      [done|]. right; right. by injection Hr as ->.
Qed.

Lemma insert_caught self obj s :
  super_insert self obj = None ->
  Forall (fun q => is_Some (_REGISTERS s !! q))
         (supers_of (_klass_qualname self) s) ->
  caught_or_returned (fst (insert self obj s)).
Proof.
  intros Hsuper Hreg.
  destruct (insert_outcome self obj s Hsuper Hreg) as [->|[->| ->]]; simpl;
    [done| |]; unfold error_classes; set_solver.
Qed.

(** [insert] completes when the base check passes, the class has a bucket,
    and the listed classes are pairwise distinct, differ from the class and
    have buckets without the id. *)
Lemma insert_ok self obj s :
  super_insert self obj = None ->
  is_Some (_REGISTERS s !! _klass_qualname self) ->
  NoDup (_klass_qualname self :: supers_of (_klass_qualname self) s) ->
  Forall (fun q => entry q (_get_id self obj) s = Some None)
         (supers_of (_klass_qualname self) s) ->
  fst (insert self obj s) = Return true.
Proof.
  intros Hsuper [bucket Hb] Hnd Hfree.
  apply NoDup_cons in Hnd as [Hown Hnd].
  rewrite insert_unfold, Hsuper, Hb. cbv zeta. set (s1 := State _ _).
  pose proof (insert_fan_out_ok (_get_id self obj) obj
                (supers_of (_klass_qualname self) s) s1 Hnd) as Hok.
  destruct (insert_fan_out _ _ _ s1) as [[[]|e] s2]; simpl in *; [done|].
  exfalso. enough (Raise e = Return tt :> result unit) by done.
  apply Hok. apply Forall_forall. intros q Hq.
  unfold s1. rewrite entry_write by done.
  rewrite decide_False; [by eapply Forall_forall in Hfree|].
  intros [-> _]. by apply Hown.
Qed.

(** [insert obj] reads and writes entries of [obj]'s id only. *)
Lemma insert_cong self obj s1 s2 :
  supers_of (_klass_qualname self) s1 = supers_of (_klass_qualname self) s2 ->
  (forall q, entry q (_get_id self obj) s1 = entry q (_get_id self obj) s2) ->
  fst (insert self obj s1) = fst (insert self obj s2) /\
  forall q, entry q (_get_id self obj) (snd (insert self obj s1))
          = entry q (_get_id self obj) (snd (insert self obj s2)).
Proof.
  intros Hsup Hs. rewrite !insert_unfold.
  destruct (super_insert self obj); [done|].
  pose proof (Hs (_klass_qualname self)) as Hown.
  destruct (_REGISTERS s1 !! _klass_qualname self) as [b1|] eqn:Hb1.
  - assert (entry (_klass_qualname self) (_get_id self obj) s1
            = Some (PyDict.getitem (_get_id self obj) b1)) as He1
      by (apply entry_Some; eauto).
    rewrite He1 in Hown. symmetry in Hown.
    apply entry_Some in Hown as (b2 & Hb2 & Hg). rewrite Hb2. cbv zeta.
    rewrite Hsup.
    set (t1 := State (<[_ := _]> (_REGISTERS s1)) _).
    set (t2 := State (<[_ := _]> (_REGISTERS s2)) _).
    destruct (insert_fan_out_cong (_get_id self obj) obj
                (supers_of (_klass_qualname self) s2) t1 t2) as [Hr He].
    { intros q. unfold t1, t2. rewrite !entry_write by done.
      case_decide; [done|apply Hs]. }
    destruct (insert_fan_out _ _ _ t1) as [[[]|e1] t1'],
             (insert_fan_out _ _ _ t2) as [[[]|e2] t2']; simpl in *;
      try done.
    by injection Hr as ->.
  - assert (entry (_klass_qualname self) (_get_id self obj) s1 = None) as He1
      by by apply entry_None.
    rewrite He1 in Hown. symmetry in Hown. apply entry_None in Hown.
    by rewrite Hown.
Qed.

(** Once [insert] has reached its loop, the first listed bucket holds the
    id, whether the loop completed or not. *)
Lemma insert_head_held self obj s q0 rest :
  super_insert self obj = None ->
  is_Some (_REGISTERS s !! _klass_qualname self) ->
  supers_of (_klass_qualname self) s = q0 :: rest ->
  is_Some (_REGISTERS s !! q0) ->
  in_bucket q0 (_get_id self obj) (snd (insert self obj s)).
Proof.
  intros Hsuper [bucket Hb] Hsup Hq0.
  rewrite insert_unfold, Hsuper, Hb, Hsup. cbv zeta. set (s1 := State _ _).
  pose proof (insert_fan_out_head_held (_get_id self obj) obj q0 rest s1) as Hh.
  destruct (insert_fan_out _ _ _ s1) as [[[]|e] s2]; simpl in *; apply Hh;
    by apply registered_write.
Qed.

End StoreFacts.

(** ** Queries *)

Section QueryFacts.
Context {T : Type}.
Implicit Types (self : InMemoryRepository T) (obj : T) (s : state T)
  (q : string) (k : Z).

Lemma get_bucket self k s bucket :
  _REGISTERS s !! _klass_qualname self = Some bucket ->
  get self k s =
    match PyDict.getitem k bucket with
    | Some obj => (Return obj, s)
    | None =>
        (Raise (NotFound (format _NOT_FOUND_MSG
                            [ArgBuiltinId; ArgRepo (_klass_qualname self)])), s)
    end.
Proof.
  intros Hb. unfold get. unfold_monad. rewrite Hb.
  by destruct (PyDict.getitem k bucket).
Qed.

Lemma get_or_none_bucket self k s bucket :
  _REGISTERS s !! _klass_qualname self = Some bucket ->
  get_or_none self k s = (Return (PyDict.getitem k bucket), s).
Proof. intros Hb. unfold get_or_none. unfold_monad. by rewrite Hb. Qed.

Lemma exists_bucket self k s bucket :
  _REGISTERS s !! _klass_qualname self = Some bucket ->
  exists_ self k s = (Return (PyDict.contains k bucket), s).
Proof. intros Hb. unfold exists_. unfold_monad. by rewrite Hb. Qed.

Lemma all_bucket self s bucket :
  _REGISTERS s !! _klass_qualname self = Some bucket ->
  all self s = (Return (PyDict.values bucket), s).
Proof. intros Hb. unfold all. unfold_monad. by rewrite Hb. Qed.

Lemma filter_bucket self p s bucket :
  _REGISTERS s !! _klass_qualname self = Some bucket ->
  filter self p s = (Return (List.filter p (PyDict.values bucket)), s).
Proof. intros Hb. unfold filter. unfold_monad. by rewrite Hb. Qed.

Lemma count_bucket self s bucket :
  _REGISTERS s !! _klass_qualname self = Some bucket ->
  count self None s = (Return (PyDict.len bucket), s).
Proof. intros Hb. unfold count. unfold_monad. by rewrite Hb. Qed.

Lemma get_entry self k s obj :
  entry (_klass_qualname self) k s = Some (Some obj) ->
  get self k s = (Return obj, s).
Proof.
  intros (bucket & Hb & Hg)%entry_Some.
  by rewrite (get_bucket _ _ _ _ Hb), Hg.
Qed.

Lemma exists_entry self k s obj :
  entry (_klass_qualname self) k s = Some (Some obj) ->
  exists_ self k s = (Return true, s).
Proof.
  intros (bucket & Hb & Hg)%entry_Some.
  rewrite (exists_bucket _ _ _ _ Hb). unfold PyDict.contains. by rewrite Hg.
Qed.

Lemma all_entry self k s obj :
  entry (_klass_qualname self) k s = Some (Some obj) ->
  exists objs, all self s = (Return objs, s) /\ In obj objs.
Proof.
  intros (bucket & Hb & Hg)%entry_Some.
  exists (PyDict.values bucket). split; [by apply all_bucket|].
  by eapply pydict_getitem_In_values.
Qed.

Lemma filter_entry self k s obj (p : T -> bool) :
  entry (_klass_qualname self) k s = Some (Some obj) ->
  p obj = true ->
  exists objs, filter self p s = (Return objs, s) /\ In obj objs.
Proof.
  intros (bucket & Hb & Hg)%entry_Some Hp.
  exists (List.filter p (PyDict.values bucket)).
  split; [by apply filter_bucket|].
  apply filter_In. split; [|done]. by eapply pydict_getitem_In_values.
Qed.

End QueryFacts.

(** ** [update], [remove], [pop], [batch_update] and histories *)

Section MutationFacts.
Context {T : Type} `{BaseRepository T}.
Implicit Types (self : InMemoryRepository T) (obj : T) (s : state T)
  (q : string) (k : Z).

Lemma update_unfold self obj s :
  update self obj s =
    match super_update self obj with
    | Some e => (Raise e, s)
    | None =>
        match _REGISTERS s !! _klass_qualname self with
        | None => (Raise (no_repository self), s)
        | Some bucket =>
            (Return true,
             State (<[_klass_qualname self :=
                        PyDict.setitem (_get_id self obj) obj bucket]>
                      (_REGISTERS s))
                   (_SUPER_KLASSES_WITH_REPO s))
        end
    end.
Proof.
  unfold update. unfold_monad.
  destruct (super_update self obj); [done|].
  by destruct (_REGISTERS s !! _klass_qualname self).
Qed.

Lemma pop_unfold self k s :
  pop self k s =
    match _REGISTERS s !! _klass_qualname self with
    | None => (Raise (not_found self k), s)
    | Some bucket =>
        match PyDict.getitem k bucket with
        | Some obj =>
            (Return obj,
             State (<[_klass_qualname self := PyDict.delitem k bucket]>
                      (_REGISTERS s))
                   (_SUPER_KLASSES_WITH_REPO s))
        | None => (Raise (not_found self k), s)
        end
    end.
Proof.
  unfold pop, bucket_pop, PyDict.pop. unfold_monad.
  destruct (_REGISTERS s !! _klass_qualname self) as [bucket|]; [|done].
  by destruct (PyDict.getitem k bucket).
Qed.

Lemma remove_unfold self obj s :
  remove self obj s =
    match _REGISTERS s !! _klass_qualname self with
    | None => (Raise (not_found self (_get_id self obj)), s)
    | Some bucket =>
        match PyDict.getitem (_get_id self obj) bucket with
        | Some _ =>
            (Return tt,
             State (<[_klass_qualname self :=
                        PyDict.delitem (_get_id self obj) bucket]>
                      (_REGISTERS s))
                   (_SUPER_KLASSES_WITH_REPO s))
        | None => (Raise (not_found self (_get_id self obj)), s)
        end
    end.
Proof.
  unfold remove, bucket_pop, PyDict.pop. unfold_monad.
  destruct (_REGISTERS s !! _klass_qualname self) as [bucket|]; [|done].
  by destruct (PyDict.getitem (_get_id self obj) bucket).
Qed.

Lemma touches_only_refl q k s : touches_only q k s s.
Proof. by repeat split. Qed.

Lemma touches_only_write q k s bucket bucket' :
  _REGISTERS s !! q = Some bucket ->
  (forall k', k' <> k -> PyDict.getitem k' bucket' = PyDict.getitem k' bucket) ->
  touches_only q k s
    (State (<[q := bucket']> (_REGISTERS s)) (_SUPER_KLASSES_WITH_REPO s)).
Proof.
  intros Hb Hsame. split; [done|]. split.
  - intros q' Hq'. simpl. by rewrite lookup_insert_ne.
  - intros k' Hk'. unfold entry. simpl.
    rewrite lookup_insert_eq, Hb. simpl. by rewrite Hsame.
Qed.


Lemma update_touches_only self obj s :
  touches_only (_klass_qualname self) (_get_id self obj) s
    (snd (update self obj s)).
Proof.
  rewrite update_unfold.
  destruct (super_update self obj); [apply touches_only_refl|].
  destruct (_REGISTERS s !! _klass_qualname self) as [bucket|] eqn:Hb;
    [|apply touches_only_refl].
  apply (touches_only_write _ _ _ _ _ Hb).
  intros k' Hk'. by apply pydict_getitem_setitem_ne.
Qed.

Lemma pop_touches_only self k s :
  touches_only (_klass_qualname self) k s (snd (pop self k s)).
Proof.
  rewrite pop_unfold.
  destruct (_REGISTERS s !! _klass_qualname self) as [bucket|] eqn:Hb;
    [|apply touches_only_refl].
  destruct (PyDict.getitem k bucket); [|apply touches_only_refl].
  apply (touches_only_write _ _ _ _ _ Hb).
  intros k' Hk'. by apply pydict_getitem_delitem_ne.
Qed.

Lemma remove_touches_only self obj s :
  touches_only (_klass_qualname self) (_get_id self obj) s
    (snd (remove self obj s)).
Proof.
  rewrite remove_unfold.
  destruct (_REGISTERS s !! _klass_qualname self) as [bucket|] eqn:Hb;
    [|apply touches_only_refl].
  destruct (PyDict.getitem (_get_id self obj) bucket);
    [|apply touches_only_refl].
  apply (touches_only_write _ _ _ _ _ Hb).
  intros k' Hk'. by apply pydict_getitem_delitem_ne.
Qed.

(** [error_catcher] changes the outcome, never the state. *)
Lemma error_catcher_state {A B} classes (f : A -> M T B) (a : A) s :
  snd (error_catcher classes f a s) = snd (f a s).
Proof.
  unfold error_catcher. destruct (f a s) as [[b|e] s']; [done|].
  by case_bool_decide.
Qed.

(** What every [insert] preserves, [batch_update] preserves. *)
Lemma batch_update_items_preserves (P : state T -> Prop) self objs acc s :
  (forall obj s0, P s0 -> P (snd (insert self obj s0))) ->
  P s -> P (snd (batch_update_items self objs acc s)).
Proof.
  intros Hins. revert acc s.
  induction objs as [|obj rest IH]; intros acc s Hs; [done|].
  simpl. unfold bind.
  pose proof (error_catcher_state error_classes (insert self) obj s) as Hst.
  destruct (error_catcher error_classes (insert self) obj s) as [[v|e] s1];
    simpl in Hst; subst s1.
  - apply IH. by apply Hins.
  - simpl. by apply Hins.
Qed.

Lemma batch_update_preserves (P : state T -> Prop) self objs s :
  (forall obj s0, P s0 -> P (snd (insert self obj s0))) ->
  P s -> P (snd (batch_update self objs s)).
Proof.
  intros Hins Hs. unfold batch_update, bind, call_super.
  destruct (super_batch_update self objs); [done|]. simpl.
  by apply batch_update_items_preserves.
Qed.

(** The first construction of a store for a class computes the index entry
    of the class from its [mro()]; any later one finds the entry. *)
Lemma init_index_first (C : klass) get_id s :
  _SUPER_KLASSES_WITH_REPO s !! get_dotted_path C = None ->
  _SUPER_KLASSES_WITH_REPO (snd (__init__ C get_id s)) !! get_dotted_path C
  = Some (map get_dotted_path
            (List.filter
               (fun c => bool_decide (is_Some (_REGISTERS s !! get_dotted_path c)))
               (mro C))).
Proof.
  intros Hnone. unfold __init__, _find_super_repos. cbn [_klass_qualname].
  rewrite Hnone. cbn [_REGISTERS _SUPER_KLASSES_WITH_REPO].
  destruct (_REGISTERS s !! get_dotted_path C); simpl;
    by rewrite lookup_insert_eq.
Qed.

Lemma init_index_frozen (C : klass) get_id s q supers :
  _SUPER_KLASSES_WITH_REPO s !! q = Some supers ->
  _SUPER_KLASSES_WITH_REPO (snd (__init__ C get_id s)) !! q = Some supers.
Proof.
  intros Hq. unfold __init__. cbn [_klass_qualname].
  destruct (_SUPER_KLASSES_WITH_REPO s !! get_dotted_path C) eqn:Hown.
  - by destruct (_REGISTERS s !! get_dotted_path C).
  - cbn [_REGISTERS _SUPER_KLASSES_WITH_REPO].
    assert (q <> get_dotted_path C) by congruence.
    destruct (_REGISTERS s !! get_dotted_path C); simpl;
      by rewrite lookup_insert_ne.
Qed.

(** Memoisation: an entry of the superclass index, once there, is never
    changed by any call. *)
Lemma exec_index_frozen (c : command T) s q supers :
  _SUPER_KLASSES_WITH_REPO s !! q = Some supers ->
  _SUPER_KLASSES_WITH_REPO (exec c s) !! q = Some supers.
Proof.
  intros Hq. destruct c as [C g|C| |self obj|self obj|self objs|self obj|self k];
    unfold exec.
  - by apply init_index_frozen.
  - done.
  - done.
  - by apply insert_index_frozen.
  - by rewrite (proj1 (update_touches_only self obj s)).
  - apply (batch_update_preserves
             (fun s0 => _SUPER_KLASSES_WITH_REPO s0 !! q = Some supers));
      [|done].
    intros obj s0. apply insert_index_frozen.
  - by rewrite (proj1 (remove_touches_only self obj s)).
  - by rewrite (proj1 (pop_touches_only self k s)).
Qed.

Lemma run_index_frozen (cs : list (command T)) s q supers :
  _SUPER_KLASSES_WITH_REPO s !! q = Some supers ->
  _SUPER_KLASSES_WITH_REPO (run cs s) !! q = Some supers.
Proof.
  revert s. induction cs as [|c cs IH]; intros s Hq; [done|].
  simpl. apply IH. by apply exec_index_frozen.
Qed.

End MutationFacts.

(** ** [batch_update], one object after the other *)

Section BatchFacts.
Context {T : Type} `{BaseRepository T}.
Implicit Types (self : InMemoryRepository T) (obj : T) (s : state T)
  (q : string) (k : Z).

Lemma error_catcher_insert self obj s :
  caught_or_returned (fst (insert self obj s)) ->
  error_catcher error_classes (insert self) obj s
  = (Return (is_Return (fst (insert self obj s))), snd (insert self obj s)).
Proof.
  unfold error_catcher. destruct (insert self obj s) as [[b|e] s']; simpl;
    [done|].
  intros Hc. by rewrite bool_decide_eq_true_2.
Qed.

Lemma batch_update_items_cons self obj rest acc s :
  caught_or_returned (fst (insert self obj s)) ->
  batch_update_items self (obj :: rest) acc s
  = batch_update_items self rest
      (PyDict.setitem (_get_id self obj) (is_Return (fst (insert self obj s))) acc)
      (snd (insert self obj s)).
Proof.
  intros Hc. simpl. unfold bind. by rewrite error_catcher_insert.
Qed.

Lemma fold_left_ext_In {A B} (f g : A -> B -> A) (l : list B) (a : A) :
  (forall x a', In x l -> f a' x = g a' x) ->
  fold_left f l a = fold_left g l a.
Proof.
  revert a. induction l as [|x l IH]; intros a Hfg; [done|].
  simpl. rewrite Hfg by by left. apply IH. intros y a' Hy. apply Hfg. by right.
Qed.

Lemma pydict_setitem_fresh {V} k (v : V) (d : list (Z * V)) :
  PyDict.getitem k d = None -> PyDict.setitem k v d = (d ++ [(k, v)])%list.
Proof.
  induction d as [|[k' v'] d IH]; simpl; [done|].
  case_decide; [done|]. intros Hd. by rewrite IH.
Qed.

(** Filling a dict with pairwise distinct new keys appends them in order. *)
Lemma fold_setitem_fresh {V} (key : T -> Z) (val : T -> V) objs
    (acc : list (Z * V)) :
  NoDup (map key objs) ->
  (forall obj, In obj objs -> PyDict.getitem (key obj) acc = None) ->
  fold_left (fun acc obj => PyDict.setitem (key obj) (val obj) acc) objs acc
  = (acc ++ map (fun obj => (key obj, val obj)) objs)%list.
Proof.
  revert acc. induction objs as [|obj rest IH]; intros acc Hnd Hfresh.
  { simpl. by rewrite app_nil_r. }
  simpl in *. apply NoDup_cons in Hnd as [Hobj Hnd].
  rewrite pydict_setitem_fresh by (apply Hfresh; by left).
  rewrite IH; [by rewrite <- app_assoc|done|].
  intros o Ho. rewrite <- pydict_setitem_fresh by (apply Hfresh; by left).
  rewrite pydict_getitem_setitem_ne; [apply Hfresh; by right|].
  intros Heq. apply Hobj. rewrite Heq. apply list_elem_of_In. by apply in_map.
Qed.

(** Objects with pairwise distinct ids do not interfere: each is processed
    as if it were inserted alone into the initial state. *)
Lemma batch_update_items_independent self objs acc s :
  NoDup (map (_get_id self) objs) ->
  Forall (fun obj => caught_or_returned (fst (insert self obj s))) objs ->
  exists s',
    batch_update_items self objs acc s
    = (Return
         (fold_left
            (fun acc obj =>
               PyDict.setitem (_get_id self obj)
                 (is_Return (fst (insert self obj s))) acc)
            objs acc), s') /\
    (forall q, supers_of q s' = supers_of q s) /\
    (forall obj q, In obj objs ->
       entry q (_get_id self obj) s'
       = entry q (_get_id self obj) (snd (insert self obj s))) /\
    (forall k q, ~ In k (map (_get_id self) objs) ->
       entry q k s' = entry q k s).
Proof.
  revert acc s. induction objs as [|obj rest IH]; intros acc s Hnd Hcaught.
  { exists s. by repeat split. }
  simpl in Hnd. apply NoDup_cons in Hnd as [Hobj Hnd].
  apply Forall_cons in Hcaught as [Hc Hcaught].
  rewrite batch_update_items_cons by done.
  set (s1 := snd (insert self obj s)).
  assert (forall o, In o rest -> _get_id self o <> _get_id self obj) as Hne.
  { intros o Ho Heq. apply Hobj. rewrite <- Heq.
    apply list_elem_of_In. by apply in_map. }
  assert (forall o, In o rest ->
            fst (insert self o s1) = fst (insert self o s) /\
            forall q, entry q (_get_id self o) (snd (insert self o s1))
                    = entry q (_get_id self o) (snd (insert self o s))) as Hcong.
  { intros o Ho. apply insert_cong.
    - apply insert_supers_of.
    - intros q. apply insert_entry_other. by apply Hne. }
  destruct (IH (PyDict.setitem (_get_id self obj)
                  (is_Return (fst (insert self obj s))) acc) s1 Hnd)
    as (s' & Hrun & Hsup & Hent & Hother).
  { apply Forall_forall. intros o Ho. apply list_elem_of_In in Ho.
    rewrite (proj1 (Hcong o Ho)).
    eapply Forall_forall in Hcaught; [exact Hcaught|by apply list_elem_of_In]. }
  exists s'. split; [|split; [|split]].
  - rewrite Hrun. simpl. f_equal. f_equal. apply fold_left_ext_In.
    intros o a Ho. by rewrite (proj1 (Hcong o Ho)).
  - intros q. rewrite Hsup. apply insert_supers_of.
  - intros o q [<-|Ho].
    + apply Hother. intros Hin. apply Hobj. by apply list_elem_of_In.
    + rewrite Hent by done. apply (proj2 (Hcong o Ho)).
  - intros k q Hk. simpl in Hk.
    rewrite Hother by tauto. apply insert_entry_other. intros ->. tauto.
Qed.

Lemma insert_conflict_fails self obj s :
  super_insert self obj = None ->
  Forall (fun q => is_Some (_REGISTERS s !! q))
         (supers_of (_klass_qualname self) s) ->
  Exists (fun q => in_bucket q (_get_id self obj) s)
         (supers_of (_klass_qualname self) s) ->
  is_Return (fst (insert self obj s)) = false.
Proof.
  intros Hsuper Hreg Hex.
  destruct (_REGISTERS s !! _klass_qualname self) as [bucket|] eqn:Hb.
  - rewrite insert_conflict; [done..|by eexists|done|done].
  - by rewrite insert_unfold, Hsuper, Hb.
Qed.

(** However the batch goes, an id that a listed bucket holds beforehand is
    answered with [False], and the batch runs to its end. *)
Lemma batch_update_items_conflict self objs acc s :
  Forall (fun obj => super_insert self obj = None) objs ->
  Forall (fun q => is_Some (_REGISTERS s !! q))
         (supers_of (_klass_qualname self) s) ->
  exists result s',
    batch_update_items self objs acc s = (Return result, s') /\
    forall k,
      Exists (fun q => in_bucket q k s) (supers_of (_klass_qualname self) s) ->
      In k (map (_get_id self) objs) \/ PyDict.getitem k acc = Some false ->
      PyDict.getitem k result = Some false.
Proof.
  revert acc s. induction objs as [|obj rest IH]; intros acc s Hbase Hreg.
  { exists acc, s. split; [done|]. intros k _ [[]|Hk]. done. }
  apply Forall_cons in Hbase as [Hobj Hbase].
  rewrite batch_update_items_cons by by apply insert_caught.
  set (s1 := snd (insert self obj s)).
  set (acc1 := PyDict.setitem _ _ acc).
  assert (supers_of (_klass_qualname self) s1
          = supers_of (_klass_qualname self) s) as Hsup
    by apply insert_supers_of.
  destruct (IH acc1 s1 Hbase) as (result & s' & Hrun & Hres).
  { rewrite Hsup. eapply Forall_impl; [exact Hreg|].
    intros q Hq. by apply insert_registered. }
  exists result, s'. split; [done|].
  intros k Hconf Hk. apply Hres.
  - rewrite Hsup. eapply Exists_impl; [exact Hconf|].
    intros q Hq. by apply insert_in_bucket.
  - unfold acc1. destruct (decide (_get_id self obj = k)) as [<-|Hne].
    + right. rewrite pydict_getitem_setitem_eq.
      by rewrite insert_conflict_fails.
    + rewrite pydict_getitem_setitem_ne by done.
      simpl in Hk. tauto.
Qed.

(** Without a bucket for the class every [insert] of the batch raises the
    no-repository [NotFound] before it writes anything, and is answered
    with [False]. *)
Lemma batch_update_items_missing_bucket self objs acc s :
  _REGISTERS s !! _klass_qualname self = None ->
  Forall (fun obj => super_insert self obj = None) objs ->
  exists result,
    batch_update_items self objs acc s = (Return result, s) /\
    (forall k, In k (map (_get_id self) objs) ->
               PyDict.getitem k result = Some false) /\
    (forall k, ~ In k (map (_get_id self) objs) ->
               PyDict.getitem k result = PyDict.getitem k acc).
Proof.
  intros Hb. revert acc. induction objs as [|obj rest IH]; intros acc Hbase.
  { exists acc. by repeat split. }
  apply Forall_cons in Hbase as [Hobj Hbase].
  assert (insert self obj s = (Raise (no_repository self), s)) as Hins
    by by rewrite insert_unfold, Hobj, Hb.
  destruct (IH (PyDict.setitem (_get_id self obj) false acc) Hbase)
    as (result & Hrun & Hin & Hout).
  exists result. split; [|split].
  - simpl. unfold bind, error_catcher. rewrite Hins. simpl. exact Hrun.
  - intros k Hk.
    destruct (In_dec Z.eq_dec k (map (_get_id self) rest)) as [Hrest|Hrest];
      [by apply Hin|].
    rewrite Hout by done. simpl in Hk. destruct Hk as [<-|Hk]; [|done].
    apply pydict_getitem_setitem_eq.
  - intros k Hk. simpl in Hk. rewrite Hout by tauto.
    apply pydict_getitem_setitem_ne. tauto.
Qed.

End BatchFacts.

(** ** Reachable states *)

Section Reachable.
Context {T : Type} `{BaseRepository T}.
Implicit Types (self : InMemoryRepository T) (obj : T) (s : state T)
  (q : string) (k : Z).

Lemma touches_only_registered q0 k s s' q :
  touches_only q0 k s s' ->
  is_Some (_REGISTERS s !! q) -> is_Some (_REGISTERS s' !! q).
Proof.
  intros (_ & Hother & Hown) Hq.
  destruct (decide (q = q0)) as [->|Hne].
  - apply (entry_is_Some q0 (k + 1)). rewrite Hown by lia.
    by apply entry_is_Some.
  - by rewrite Hother.
Qed.

Lemma touches_only_supers_registered q0 k s s' :
  touches_only q0 k s s' -> supers_registered s -> supers_registered s'.
Proof.
  intros Ht Hs q supers q' Hq Hq'.
  eapply touches_only_registered; [exact Ht|].
  destruct Ht as (Hidx & _). rewrite Hidx in Hq. by eapply Hs.
Qed.

Lemma insert_index_inv self obj s q supers :
  _SUPER_KLASSES_WITH_REPO (snd (insert self obj s)) !! q = Some supers ->
  _SUPER_KLASSES_WITH_REPO s !! q = Some supers \/ supers = [].
Proof.
  intros Hq.
  destruct (_SUPER_KLASSES_WITH_REPO s !! q) as [l|] eqn:Hs.
  - left. erewrite insert_index_frozen in Hq by done. done.
  - right. pose proof (insert_supers_of self obj s q) as Hsup.
    unfold supers_of in Hsup. by rewrite Hq, Hs in Hsup.
Qed.

Lemma insert_supers_registered self obj s :
  supers_registered s -> supers_registered (snd (insert self obj s)).
Proof.
  intros Hs q supers q' Hq Hq'. apply insert_registered.
  apply insert_index_inv in Hq as [Hq| ->]; [by eapply Hs|done].
Qed.

Lemma init_supers_registered (C : klass) get_id s :
  supers_registered s -> supers_registered (snd (__init__ C get_id s)).
Proof.
  intros Hs.
  assert (forall s0 : state T,
             supers_registered s0 ->
             supers_registered
               (match _REGISTERS s0 !! get_dotted_path C with
                | Some _ => s0
                | None => State (<[get_dotted_path C := []]> (_REGISTERS s0))
                                (_SUPER_KLASSES_WITH_REPO s0)
                end)) as Hbucket.
  { intros s0 Hs0. destruct (_REGISTERS s0 !! get_dotted_path C); [done|].
    intros q supers q' Hq Hq'. simpl in *. apply registered_write.
    by eapply Hs0. }
  unfold __init__. cbn [_klass_qualname snd]. apply Hbucket.
  destruct (_SUPER_KLASSES_WITH_REPO s !! get_dotted_path C) eqn:Hown; [done|].
  intros q supers q' Hq Hq'. simpl in *.
  destruct (decide (q = get_dotted_path C)) as [->|Hne].
  - rewrite lookup_insert_eq in Hq. injection Hq as <-.
    unfold _find_super_repos in Hq'. rewrite Hown in Hq'.
    apply in_map_iff in Hq' as (c & <- & Hc).
    apply filter_In in Hc as [_ Hc]. by apply bool_decide_eq_true_1 in Hc.
  - rewrite lookup_insert_ne in Hq by done. by eapply Hs.
Qed.

Lemma exec_supers_registered (c : command T) s :
  supers_registered s -> supers_registered (exec c s).
Proof.
  intros Hs.
  destruct c as [C g|C| |self obj|self obj|self objs|self obj|self k];
    unfold exec.
  - by apply init_supers_registered.
  - intros q supers q' Hq Hq'. simpl in *. apply registered_write.
    by eapply Hs.
  - intros q supers q' Hq Hq'. simpl in *. rewrite lookup_fmap.
    apply fmap_is_Some. by eapply Hs.
  - by apply insert_supers_registered.
  - eapply touches_only_supers_registered; [apply update_touches_only|done].
  - apply batch_update_preserves; [|done].
    intros obj s0. apply insert_supers_registered.
  - eapply touches_only_supers_registered; [apply remove_touches_only|done].
  - eapply touches_only_supers_registered; [apply pop_touches_only|done].
Qed.

Lemma run_supers_registered (cs : list (command T)) s :
  supers_registered s -> supers_registered (run cs s).
Proof.
  revert s. induction cs as [|c cs IH]; intros s Hs; [done|].
  simpl. apply IH. by apply exec_supers_registered.
Qed.

Lemma supers_registered_Forall q s :
  supers_registered s ->
  Forall (fun q' => is_Some (_REGISTERS s !! q')) (supers_of q s).
Proof.
  intros Hs. unfold supers_of.
  destruct (_SUPER_KLASSES_WITH_REPO s !! q) as [supers|] eqn:Hq; simpl;
    [|constructor].
  apply Forall_forall. intros q' Hq'. apply list_elem_of_In in Hq'.
  by eapply Hs.
Qed.

End Reachable.

(** ** More on Python dicts: keys and sizes *)

Section PyDictSizes.
Context {K V : Type} `{EqDecision K}.
Implicit Types (k : K) (v : V) (d : list (K * V)).

Lemma pydict_setitem_idemp k v d :
  PyDict.setitem k v (PyDict.setitem k v d) = PyDict.setitem k v d.
Proof.
  induction d as [|[k' v'] d IH]; simpl.
  - by rewrite decide_True.
  - destruct (decide (k = k')) as [->|Hne]; simpl.
    + by rewrite decide_True.
    + rewrite decide_False by done. by rewrite IH.
Qed.

Lemma pydict_keys_setitem k v d k' :
  In k' (map fst (PyDict.setitem k v d)) <-> k' = k \/ In k' (map fst d).
Proof.
  induction d as [|[k0 v0] d IH]; simpl.
  - intuition.
  - destruct (decide (k = k0)) as [->|Hne]; simpl.
    + intuition.
    + rewrite IH. intuition.
Qed.

Lemma pydict_getitem_keys k d :
  is_Some (PyDict.getitem k d) <-> In k (map fst d).
Proof.
  induction d as [|[k0 v0] d IH]; simpl.
  - split; [by intros [? ?]|done].
  - destruct (decide (k = k0)) as [->|Hne].
    + split; [by left|by eexists].
    + rewrite IH. intuition congruence.
Qed.

Lemma pydict_setitem_NoDup k v d :
  NoDup (map fst d) -> NoDup (map fst (PyDict.setitem k v d)).
Proof.
  induction d as [|[k0 v0] d IH]; simpl; intros Hnd.
  - apply NoDup_cons. split; [apply not_elem_of_nil|constructor].
  - apply NoDup_cons in Hnd as [Hk0 Hnd].
    destruct (decide (k = k0)) as [->|Hne]; simpl.
    + apply NoDup_cons. by split.
    + apply NoDup_cons. split; [|by apply IH].
      rewrite list_elem_of_In, pydict_keys_setitem.
      rewrite list_elem_of_In in Hk0. intuition congruence.
Qed.

Lemma pydict_delitem_cons k k0 v0 d :
  PyDict.delitem k ((k0, v0) :: d)
  = if decide (k = k0) then PyDict.delitem k d
    else (k0, v0) :: PyDict.delitem k d.
Proof.
  unfold PyDict.delitem. simpl.
  destruct (decide (k = k0)) as [->|Hne].
  - by rewrite bool_decide_eq_true_2.
  - by rewrite bool_decide_eq_false_2.
Qed.

Lemma pydict_keys_delitem k d k' :
  In k' (map fst (PyDict.delitem k d)) -> In k' (map fst d).
Proof.
  induction d as [|[k0 v0] d IH]; [done|].
  rewrite pydict_delitem_cons. simpl.
  destruct (decide (k = k0)); simpl; intuition.
Qed.

Lemma pydict_delitem_NoDup k d :
  NoDup (map fst d) -> NoDup (map fst (PyDict.delitem k d)).
Proof.
  induction d as [|[k0 v0] d IH]; [done|].
  rewrite pydict_delitem_cons. simpl. intros Hnd.
  apply NoDup_cons in Hnd as [Hk0 Hnd].
  destruct (decide (k = k0)); simpl; [by apply IH|].
  apply NoDup_cons. split; [|by apply IH].
  rewrite list_elem_of_In in *. intros Hin. apply Hk0.
  by eapply pydict_keys_delitem.
Qed.

(** Assigning to a key that is there keeps the size; a new key adds one. *)
Lemma pydict_len_setitem k v d :
  PyDict.len (PyDict.setitem k v d)
  = PyDict.len d + (if PyDict.contains k d then 0 else 1).
Proof.
  unfold PyDict.len, PyDict.contains.
  induction d as [|[k0 v0] d IH]; simpl PyDict.setitem; simpl PyDict.getitem.
  - done.
  - destruct (decide (k = k0)) as [->|Hne].
    + simpl. lia.
    + simpl length. destruct (PyDict.getitem k d); lia.
Qed.

Lemma pydict_delitem_absent k d :
  PyDict.getitem k d = None -> PyDict.delitem k d = d.
Proof.
  induction d as [|[k0 v0] d IH]; [done|].
  rewrite pydict_delitem_cons. simpl.
  destruct (decide (k = k0)) as [->|Hne]; [done|].
  intros Hd. by rewrite IH.
Qed.

(** Removing a key that is there takes one entry away, the ids being
    pairwise distinct. *)
Lemma pydict_len_delitem k d :
  NoDup (map fst d) ->
  PyDict.contains k d = true ->
  PyDict.len (PyDict.delitem k d) = PyDict.len d - 1.
Proof.
  unfold PyDict.len, PyDict.contains.
  induction d as [|[k0 v0] d IH]; [done|].
  rewrite pydict_delitem_cons. simpl.
  intros Hnd. apply NoDup_cons in Hnd as [Hk0 Hnd].
  destruct (decide (k = k0)) as [->|Hne].
  - intros _. rewrite pydict_delitem_absent; [lia|].
    destruct (PyDict.getitem k0 d) eqn:Hg; [|done].
    exfalso. apply Hk0. apply list_elem_of_In. apply pydict_getitem_keys.
    by rewrite Hg.
  - intros Hc. simpl length. specialize (IH Hnd Hc). lia.
Qed.

End PyDictSizes.

(** ** What [insert] writes, bucket by bucket *)

Section InsertFrame.
Context {T : Type} `{BaseRepository T}.
Implicit Types (self : InMemoryRepository T) (obj : T) (s : state T)
  (q : string) (k : Z).

(** The loop writes into listed buckets only. *)
Lemma insert_fan_out_frame k obj supers s q :
  ~ In q supers ->
  _REGISTERS (snd (insert_fan_out k obj supers s)) !! q = _REGISTERS s !! q.
Proof.
  revert s. induction supers as [|q0 rest IH]; intros s Hq; [done|].
  rewrite insert_fan_out_cons.
  destruct (_REGISTERS s !! q0) as [bucket|]; [|done].
  destruct (PyDict.contains k bucket); [done|].
  rewrite IH by (simpl in Hq; tauto). simpl.
  rewrite lookup_insert_ne; [done|]. simpl in Hq. tauto.
Qed.

(** A bucket comes out of the loop as it went in, or with [obj] assigned
    under [k]. *)
Lemma insert_fan_out_bucket k obj supers s q :
  _REGISTERS (snd (insert_fan_out k obj supers s)) !! q = _REGISTERS s !! q \/
  exists bucket,
    _REGISTERS s !! q = Some bucket /\
    _REGISTERS (snd (insert_fan_out k obj supers s)) !! q
    = Some (PyDict.setitem k obj bucket).
Proof.
  revert s. induction supers as [|q0 rest IH]; intros s; [by left|].
  rewrite insert_fan_out_cons.
  destruct (_REGISTERS s !! q0) as [bucket|] eqn:Hb; [|by left].
  destruct (PyDict.contains k bucket); [by left|].
  set (s1 := State _ _).
  destruct (decide (q = q0)) as [->|Hne].
  - right. exists bucket. split; [done|].
    destruct (IH s1) as [->|(b1 & Hb1 & ->)].
    + unfold s1. simpl. by rewrite lookup_insert_eq.
    + unfold s1 in Hb1. simpl in Hb1. rewrite lookup_insert_eq in Hb1.
      injection Hb1 as <-. by rewrite pydict_setitem_idemp.
  - assert (_REGISTERS s1 !! q = _REGISTERS s !! q) as Hs1
      by (unfold s1; simpl; by rewrite lookup_insert_ne).
    destruct (IH s1) as [->|(b1 & Hb1 & ->)]; [by left|].
    right. exists b1. by rewrite <- Hs1.
Qed.

Lemma insert_bucket self obj s q :
  _REGISTERS (snd (insert self obj s)) !! q = _REGISTERS s !! q \/
  exists bucket,
    _REGISTERS s !! q = Some bucket /\
    _REGISTERS (snd (insert self obj s)) !! q
    = Some (PyDict.setitem (_get_id self obj) obj bucket).
Proof.
  rewrite insert_unfold.
  destruct (super_insert self obj); [by left|].
  destruct (_REGISTERS s !! _klass_qualname self) as [bucket|] eqn:Hb;
    [|by left].
  cbv zeta. set (s1 := State _ _).
  pose proof (insert_fan_out_bucket (_get_id self obj) obj
                (supers_of (_klass_qualname self) s) s1 q) as Hloop.
  assert (_REGISTERS (snd (insert_fan_out (_get_id self obj) obj
                             (supers_of (_klass_qualname self) s) s1)) !! q
          = _REGISTERS s !! q \/
          exists b,
            _REGISTERS s !! q = Some b /\
            _REGISTERS (snd (insert_fan_out (_get_id self obj) obj
                               (supers_of (_klass_qualname self) s) s1)) !! q
            = Some (PyDict.setitem (_get_id self obj) obj b)) as Hgoal.
  { destruct (decide (q = _klass_qualname self)) as [->|Hne].
    - right. exists bucket. split; [done|].
      destruct Hloop as [->|(b1 & Hb1 & ->)].
      + unfold s1. simpl. by rewrite lookup_insert_eq.
      + unfold s1 in Hb1. simpl in Hb1. rewrite lookup_insert_eq in Hb1.
        injection Hb1 as <-. by rewrite pydict_setitem_idemp.
    - assert (_REGISTERS s1 !! q = _REGISTERS s !! q) as Hs1
        by (unfold s1; simpl; by rewrite lookup_insert_ne).
      destruct Hloop as [->|(b1 & Hb1 & ->)]; [by left|].
      right. exists b1. by rewrite <- Hs1. }
  by destruct (insert_fan_out _ _ _ s1) as [[[]|e] s'].
Qed.

(** [insert] writes into the bucket of the class and into listed buckets
    only. *)
Lemma insert_frame_buckets self obj s q :
  q <> _klass_qualname self ->
  ~ In q (supers_of (_klass_qualname self) s) ->
  _REGISTERS (snd (insert self obj s)) !! q = _REGISTERS s !! q.
Proof.
  intros Hown Hq. rewrite insert_unfold.
  destruct (super_insert self obj); [done|].
  destruct (_REGISTERS s !! _klass_qualname self) as [bucket|]; [|done].
  cbv zeta. set (s1 := State _ _).
  pose proof (insert_fan_out_frame (_get_id self obj) obj
                (supers_of (_klass_qualname self) s) s1 q Hq) as Hloop.
  assert (_REGISTERS s1 !! q = _REGISTERS s !! q) as Hs1
    by (unfold s1; simpl; by rewrite lookup_insert_ne).
  destruct (insert_fan_out _ _ _ s1) as [[[]|e] s']; simpl in *; congruence.
Qed.

(** Once the base check has passed and the bucket of the class is there,
    [obj] is in that bucket after the call, whatever the outcome. *)
Lemma insert_own_written self obj s :
  super_insert self obj = None ->
  is_Some (_REGISTERS s !! _klass_qualname self) ->
  entry (_klass_qualname self) (_get_id self obj) (snd (insert self obj s))
  = Some (Some obj).
Proof.
  intros Hsuper [bucket Hb].
  rewrite insert_unfold, Hsuper, Hb. cbv zeta. set (s1 := State _ _).
  assert (Hw : entry (_klass_qualname self) (_get_id self obj) s1
               = Some (Some obj)).
  { unfold s1. rewrite entry_write by done. by rewrite decide_True. }
  pose proof (insert_fan_out_entry (_get_id self obj) obj
                (supers_of (_klass_qualname self) s) s1
                (_klass_qualname self) (_get_id self obj)) as Hent.
  destruct (insert_fan_out _ _ _ s1) as [[[]|e] s2]; simpl in *;
    destruct Hent as [->|(_ & _ & ->)]; done.
Qed.

(** A loop that completes has found every listed bucket without [k], and
    the listed classes pairwise distinct. *)
Lemma insert_fan_out_returns_free k obj supers s s' :
  insert_fan_out k obj supers s = (Return tt, s') ->
  NoDup supers /\ Forall (fun q => entry q k s = Some None) supers.
Proof.
  revert s. induction supers as [|q0 rest IH]; intros s.
  { intros _. split; constructor. }
  rewrite insert_fan_out_cons.
  destruct (_REGISTERS s !! q0) as [bucket|] eqn:Hb; [|done].
  destruct (PyDict.contains k bucket) eqn:Hc; [done|].
  set (s1 := State _ _). intros Hrun.
  destruct (IH s1 Hrun) as [Hnd Hfree].
  assert (forall q, q ∈ rest -> q <> q0 /\ entry q k s = Some None) as Hrest.
  { intros q Hq. eapply Forall_forall in Hfree; [|exact Hq].
    unfold s1 in Hfree. rewrite entry_write in Hfree by done.
    case_decide as Hd; [done|]. split; [|done]. intros ->. by apply Hd. }
  split.
  - apply NoDup_cons. split; [|done]. intros Hq0.
    by destruct (Hrest q0 Hq0).
  - apply Forall_cons. split.
    + apply entry_Some. exists bucket. split; [done|].
      by apply pydict_contains_false.
    + apply Forall_forall. intros q Hq. by destruct (Hrest q Hq).
Qed.

(** What a returning [insert] tells about the state it started from. *)
Lemma insert_returns_inv self obj s s' :
  insert self obj s = (Return true, s') ->
  super_insert self obj = None /\
  is_Some (_REGISTERS s !! _klass_qualname self) /\
  NoDup (_klass_qualname self :: supers_of (_klass_qualname self) s) /\
  Forall (fun q => entry q (_get_id self obj) s = Some None)
         (supers_of (_klass_qualname self) s).
Proof.
  rewrite insert_unfold.
  destruct (super_insert self obj); [done|].
  destruct (_REGISTERS s !! _klass_qualname self) as [bucket|] eqn:Hb; [|done].
  cbv zeta. set (s1 := State _ _).
  destruct (insert_fan_out _ _ _ s1) as [[[]|e] s2] eqn:Hrun; [|done].
  intros _. apply insert_fan_out_returns_free in Hrun as [Hnd Hfree].
  assert (forall q, q ∈ supers_of (_klass_qualname self) s ->
            q <> _klass_qualname self /\
            entry q (_get_id self obj) s = Some None) as Hrest.
  { intros q Hq. eapply Forall_forall in Hfree; [|exact Hq].
    unfold s1 in Hfree. rewrite entry_write in Hfree by done.
    case_decide as Hd; [done|]. split; [|done]. intros ->. by apply Hd. }
  split; [done|]. split; [by eexists|]. split.
  - apply NoDup_cons. split; [|done]. intros Hown.
    by destruct (Hrest _ Hown).
  - apply Forall_forall. intros q Hq. by destruct (Hrest q Hq).
Qed.

End InsertFrame.

(** ** Construction, and what every call keeps *)

Section Keeps.
Context {T : Type} `{BaseRepository T}.
Implicit Types (self : InMemoryRepository T) (obj : T) (s : state T)
  (q : string) (k : Z).

Lemma init_keeps_buckets (C : klass) get_id s q bucket :
  _REGISTERS s !! q = Some bucket ->
  _REGISTERS (snd (__init__ C get_id s)) !! q = Some bucket.
Proof.
  intros Hq. unfold __init__. cbn [_klass_qualname snd].
  destruct (_SUPER_KLASSES_WITH_REPO s !! get_dotted_path C);
    cbn [_REGISTERS _SUPER_KLASSES_WITH_REPO];
    destruct (_REGISTERS s !! get_dotted_path C) eqn:Hown; simpl; try done;
    rewrite lookup_insert_ne; [done| |done|]; intros Heq; subst q; congruence.
Qed.

Lemma init_own_bucket (C : klass) get_id s :
  is_Some (_REGISTERS (snd (__init__ C get_id s)) !! get_dotted_path C).
Proof.
  unfold __init__. cbn [_klass_qualname snd].
  destruct (_SUPER_KLASSES_WITH_REPO s !! get_dotted_path C);
    cbn [_REGISTERS _SUPER_KLASSES_WITH_REPO];
    destruct (_REGISTERS s !! get_dotted_path C) eqn:Hown; simpl;
    rewrite ?Hown, ?lookup_insert_eq; by eexists.
Qed.



(** No call removes a bucket from the registry. *)
Lemma exec_registered (c : command T) s q :
  is_Some (_REGISTERS s !! q) -> is_Some (_REGISTERS (exec c s) !! q).
Proof.
  intros Hq.
  destruct c as [C g|C| |self obj|self obj|self objs|self obj|self k];
    unfold exec.
  - destruct Hq as [bucket Hq]. exists bucket. by apply init_keeps_buckets.
  - simpl. by apply registered_write.
  - simpl. rewrite lookup_fmap. by apply fmap_is_Some.
  - by apply insert_registered.
  - eapply touches_only_registered; [apply update_touches_only|done].
  - apply (batch_update_preserves (fun s0 => is_Some (_REGISTERS s0 !! q)));
      [|done].
    intros obj s0. apply insert_registered.
  - eapply touches_only_registered; [apply remove_touches_only|done].
  - eapply touches_only_registered; [apply pop_touches_only|done].
Qed.

Lemma run_registered (cs : list (command T)) s q :
  is_Some (_REGISTERS s !! q) -> is_Some (_REGISTERS (run cs s) !! q).
Proof.
  revert s. induction cs as [|c cs IH]; intros s Hq; [done|].
  simpl. apply IH. by apply exec_registered.
Qed.

(** Every call keeps the ids of each bucket pairwise distinct. *)
Lemma distinct_ids_write s q0 bucket :
  distinct_ids s ->
  NoDup (map fst bucket) ->
  distinct_ids (State (<[q0 := bucket]> (_REGISTERS s))
                      (_SUPER_KLASSES_WITH_REPO s)).
Proof.
  intros Hs Hb q b. simpl. destruct (decide (q = q0)) as [->|Hne].
  - rewrite lookup_insert_eq. by intros [= <-].
  - rewrite lookup_insert_ne by done. apply Hs.
Qed.

Lemma insert_distinct_ids self obj s :
  distinct_ids s -> distinct_ids (snd (insert self obj s)).
Proof.
  intros Hs q b Hq.
  destruct (insert_bucket self obj s q) as [Heq|(b0 & Hb0 & Heq)].
  - rewrite Heq in Hq. by eapply Hs.
  - rewrite Heq in Hq. injection Hq as <-.
    apply pydict_setitem_NoDup. by eapply Hs.
Qed.

Lemma init_distinct_ids (C : klass) get_id s :
  distinct_ids s -> distinct_ids (snd (__init__ C get_id s)).
Proof.
  intros Hs. unfold __init__. cbn [_klass_qualname snd].
  destruct (_SUPER_KLASSES_WITH_REPO s !! get_dotted_path C);
    cbn [_REGISTERS _SUPER_KLASSES_WITH_REPO];
    destruct (_REGISTERS s !! get_dotted_path C); try done;
    intros q b; simpl; (destruct (decide (q = get_dotted_path C)) as [->|Hne];
      [rewrite lookup_insert_eq; intros [= <-]; constructor
      |rewrite lookup_insert_ne by done; apply Hs]).
Qed.

Lemma exec_distinct_ids (c : command T) s :
  distinct_ids s -> distinct_ids (exec c s).
Proof.
  intros Hs.
  destruct c as [C g|C| |self obj|self obj|self objs|self obj|self k];
    unfold exec.
  - by apply init_distinct_ids.
  - simpl. apply (distinct_ids_write s _ []); [done|constructor].
  - intros q b. simpl. rewrite lookup_fmap.
    destruct (_REGISTERS s !! q); simpl; [|done].
    intros [= <-]. constructor.
  - by apply insert_distinct_ids.
  - rewrite update_unfold. destruct (super_update self obj); [done|].
    destruct (_REGISTERS s !! _klass_qualname self) as [b|] eqn:Hb; [|done].
    simpl. apply distinct_ids_write; [done|].
    apply pydict_setitem_NoDup. by eapply Hs.
  - apply batch_update_preserves; [|done].
    intros obj s0. apply insert_distinct_ids.
  - rewrite remove_unfold.
    destruct (_REGISTERS s !! _klass_qualname self) as [b|] eqn:Hb; [|done].
    destruct (PyDict.getitem (_get_id self obj) b); [|done].
    simpl. apply distinct_ids_write; [done|].
    apply pydict_delitem_NoDup. by eapply Hs.
  - rewrite pop_unfold.
    destruct (_REGISTERS s !! _klass_qualname self) as [b|] eqn:Hb; [|done].
    destruct (PyDict.getitem k b); [|done].
    simpl. apply distinct_ids_write; [done|].
    apply pydict_delitem_NoDup. by eapply Hs.
Qed.

Lemma run_distinct_ids (cs : list (command T)) s :
  distinct_ids s -> distinct_ids (run cs s).
Proof.
  revert s. induction cs as [|c cs IH]; intros s Hs; [done|].
  simpl. apply IH. by apply exec_distinct_ids.
Qed.

Lemma initial_distinct_ids : distinct_ids (@initial_state T).
Proof. intros q b Hq. simpl in Hq. by rewrite lookup_empty in Hq. Qed.

(** ** The mapping [batch_update] builds *)

Lemma batch_update_items_raises self objs acc s e s' :
  batch_update_items self objs acc s = (Raise e, s') ->
  class_of e ∉ error_classes.
Proof.
  revert acc s. induction objs as [|obj rest IH]; intros acc s; [done|].
  simpl. unfold bind, error_catcher.
  destruct (insert self obj s) as [[b|e0] s1].
  - apply IH.
  - case_bool_decide as Hc; [apply IH|].
    by intros [= <- <-].
Qed.

Lemma batch_update_items_keys self objs acc s result s' :
  batch_update_items self objs acc s = (Return result, s') ->
  NoDup (map fst acc) ->
  NoDup (map fst result) /\
  forall k, In k (map fst result) <->
            In k (map fst acc) \/ In k (map (_get_id self) objs).
Proof.
  revert acc s. induction objs as [|obj rest IH]; intros acc s.
  { simpl. intros [= <- <-] Hnd. split; [done|]. intros k. simpl. tauto. }
  simpl. unfold bind.
  destruct (error_catcher error_classes (insert self) obj s) as [[v|e0] s1];
    [|done].
  intros Hrun Hnd.
  destruct (IH _ _ Hrun (pydict_setitem_NoDup _ _ _ Hnd)) as [Hres Hkeys].
  split; [done|]. intros k. rewrite Hkeys, pydict_keys_setitem. simpl.
  intuition congruence.
Qed.

End Keeps.

(** * The claims *)

Section Claims.
Context {T : Type} `{BaseRepository T}.
Implicit Types (self : InMemoryRepository T) (obj : T) (s : state T)
  (q : string) (k : Z).

(** C1, as the code has it -- one failure kind.  The store raises a single
    named, catchable kind, [NotFound]; a missing bucket is not a kind of its
    own.  On a class identifier without a registry bucket, and leaving the
    state as it is:
    - [get], [get_or_none], [all], [exists], [count], [filter], and
      [insert] and [update] once the base check has passed, raise
      [NotFound] with the no-repository message;
    - [remove] and [pop] raise [NotFound] with the id-not-found message,
      the very exception they raise for an id the bucket does not hold;
    - [batch_update], the base checks passing, does not fail: it returns a
      mapping that answers every id of the batch with [False].
    The no-repository [NotFound] and the [NotFound] that [get] raises for
    an absent id are of the same kind and differ by their message. *)
Theorem missing_bucket_raises_NotFound self s :
  _REGISTERS s !! _klass_qualname self = None ->
  ((forall k, get self k s = (Raise (no_repository self), s)) /\
   (forall k, get_or_none self k s = (Raise (no_repository self), s)) /\
   all self s = (Raise (no_repository self), s) /\
   (forall k, exists_ self k s = (Raise (no_repository self), s)) /\
   (forall p, count self p s = (Raise (no_repository self), s)) /\
   (forall p, filter self p s = (Raise (no_repository self), s)) /\
   (forall obj, super_insert self obj = None ->
                insert self obj s = (Raise (no_repository self), s)) /\
   (forall obj, super_update self obj = None ->
                update self obj s = (Raise (no_repository self), s))) /\
  ((forall obj,
      remove self obj s = (Raise (not_found self (_get_id self obj)), s)) /\
   (forall k, pop self k s = (Raise (not_found self k), s))) /\
  (forall objs,
     super_batch_update self objs = None ->
     Forall (fun obj => super_insert self obj = None) objs ->
     exists result,
       batch_update self objs s = (Return result, s) /\
       (forall k, In k (map (_get_id self) objs) ->
                  PyDict.getitem k result = Some false) /\
       (forall k, ~ In k (map (_get_id self) objs) ->
                  PyDict.getitem k result = None)) /\
  (class_of (no_repository self) = NotFoundClass /\
   (forall k, class_of (not_found self k) = NotFoundClass) /\
   forall s0 bucket k,
     _REGISTERS s0 !! _klass_qualname self = Some bucket ->
     PyDict.getitem k bucket = None ->
     (get self k s0
      = (Raise (NotFound (format _NOT_FOUND_MSG
                            [ArgBuiltinId; ArgRepo (_klass_qualname self)])),
         s0) /\
      class_of (NotFound (format _NOT_FOUND_MSG
                            [ArgBuiltinId; ArgRepo (_klass_qualname self)]))
      = class_of (no_repository self) /\
      NotFound (format _NOT_FOUND_MSG
                  [ArgBuiltinId; ArgRepo (_klass_qualname self)])
      <> no_repository self) /\
     pop self k s0 = (Raise (not_found self k), s0) /\
     (forall obj, _get_id self obj = k ->
                  remove self obj s0 = (Raise (not_found self k), s0))).
Proof.
  intros Hb. split; [|split; [|split]].
  - repeat split; intros.
    + unfold get. unfold_monad. by rewrite Hb.
    + unfold get_or_none. unfold_monad. by rewrite Hb.
    + unfold all. unfold_monad. by rewrite Hb.
    + unfold exists_. unfold_monad. by rewrite Hb.
    + destruct p; unfold count, filter; unfold_monad; by rewrite Hb.
    + unfold filter. unfold_monad. by rewrite Hb.
    + rewrite insert_unfold, Hb. by destruct (super_insert self obj).
    + rewrite update_unfold, Hb. by destruct (super_update self obj).
  - split.
    + intros obj. by rewrite remove_unfold, Hb.
    + intros k. by rewrite pop_unfold, Hb.
  - intros objs Hbatch Hbase.
    destruct (batch_update_items_missing_bucket self objs [] s Hb Hbase)
      as (result & Hrun & Hin & Hout).
    exists result. split; [|split; [done|]].
    + unfold batch_update, bind, call_super. by rewrite Hbatch.
    + intros k Hk. by rewrite Hout.
  - split; [done|]. split; [done|]. intros s0 bucket k Hb0 Hk. split; [|split].
    + rewrite (get_bucket _ _ _ _ Hb0), Hk. split; [done|].
      split; [done|]. discriminate.
    + by rewrite pop_unfold, Hb0, Hk.
    + intros obj Hid. by rewrite remove_unfold, Hb0, Hid, Hk.
Qed.

(** C2, as the code has it -- the id conflict is caught item by item.
    [batch_update] lists [AssertionError] among the classes it catches.  On
    a state where the classes listed in the index have their buckets, with
    base checks that pass, a batch holding objects whose id is already in
    an ancestor bucket is not aborted: [insert] of such an object raises the
    id-conflict [AssertionError] (given the bucket of the class), and
    [batch_update] still returns its mapping, in which the id of each such
    object is answered with [False]. *)
Theorem batch_update_catches_id_conflict self objs s :
  super_batch_update self objs = None ->
  Forall (fun obj => super_insert self obj = None) objs ->
  Forall (fun q => is_Some (_REGISTERS s !! q))
         (supers_of (_klass_qualname self) s) ->
  exists result s',
    batch_update self objs s = (Return result, s') /\
    forall obj,
      In obj objs ->
      Exists (fun q => in_bucket q (_get_id self obj) s)
             (supers_of (_klass_qualname self) s) ->
      (is_Some (_REGISTERS s !! _klass_qualname self) ->
       fst (insert self obj s)
       = Raise (AssertionError "Id conflict in super repos")) /\
      PyDict.getitem (_get_id self obj) result = Some false.
Proof.
  intros Hbatch Hbase Hreg.
  destruct (batch_update_items_conflict self objs [] s Hbase Hreg)
    as (result & s' & Hrun & Hres).
  exists result, s'. split.
  - unfold batch_update, bind, call_super. by rewrite Hbatch.
  - intros obj Hobj Hconf. split.
    + intros Hown. apply insert_conflict; try done.
      eapply Forall_forall in Hbase; [exact Hbase|by apply list_elem_of_In].
    + apply Hres; [done|]. left. by apply in_map.
Qed.

(** C4, as the code has it -- propagation of an insert that returns.  Let
    [A] be an ancestor of [S] whose bucket exists when the first store for
    [S] is constructed.  Whatever calls are made afterwards, an [insert]
    through the store of [S] that returns [True] makes the object
    retrievable through any store of [A]: [get] of its id returns it,
    [all()] lists it, and so does [filter(p)] for every predicate it
    satisfies.  An [insert] that raises promises nothing of the kind. *)
Theorem insert_propagates_to_ancestor (S A : klass) (get_id : T -> Z)
    (store_A : InMemoryRepository T) (cs : list (command T)) obj s0 s' :
  In A (ancestors S) ->
  is_Some (_REGISTERS s0 !! get_dotted_path A) ->
  _SUPER_KLASSES_WITH_REPO s0 !! get_dotted_path S = None ->
  _klass_qualname store_A = get_dotted_path A ->
  insert (fst (__init__ S get_id s0)) obj
         (run cs (snd (__init__ S get_id s0))) = (Return true, s') ->
  get store_A (get_id obj) s' = (Return obj, s') /\
  (exists objs, all store_A s' = (Return objs, s') /\ In obj objs) /\
  (forall p : T -> bool, p obj = true ->
     exists objs, filter store_A p s' = (Return objs, s') /\ In obj objs).
Proof.
  intros HA Hreg Hfirst HqA Hins.
  set (store_S := fst (__init__ S get_id s0)) in *.
  assert (_klass_qualname store_S = get_dotted_path S) as HqS by done.
  assert (_get_id store_S = get_id) as Hid by done.
  assert (In (get_dotted_path A)
             (supers_of (get_dotted_path S)
                (run cs (snd (__init__ S get_id s0))))) as Hlisted.
  { unfold supers_of.
    erewrite run_index_frozen; [|by apply init_index_first].
    cbn [from_option id]. apply in_map. apply filter_In. split; [by right|].
    by apply bool_decide_eq_true_2. }
  apply insert_written in Hins. rewrite HqS, Hid in Hins.
  apply Forall_cons in Hins as [_ Hsupers].
  eapply Forall_forall in Hsupers; [|by apply list_elem_of_In].
  rewrite <- HqA in Hsupers.
  split; [by apply get_entry|].
  split; [by eapply all_entry|].
  intros p Hp. by eapply filter_entry.
Qed.

(** C5 -- insert postcondition.  After [insert(obj)] has returned [True]
    through a store, [get] of [obj]'s id on that store returns [obj] and
    [exists] of that id returns [True].  (That the id is in no ancestor
    bucket beforehand is what lets [insert] return; the conclusion needs
    nothing more than the return.) *)
Theorem insert_then_get_exists self obj s s' :
  insert self obj s = (Return true, s') ->
  get self (_get_id self obj) s' = (Return obj, s') /\
  exists_ self (_get_id self obj) s' = (Return true, s').
Proof.
  intros Hins. apply insert_written in Hins.
  apply Forall_cons in Hins as [Hown _].
  split; [by apply get_entry | by eapply exists_entry].
Qed.

(** C6 -- frame of the mutations other than [insert].  [update(obj)],
    [remove(obj)] and [pop(id)] leave the superclass index and the bucket of
    every other class (every ancestor's in particular) exactly as they
    were, and in the bucket of the store's own class they touch no entry
    but that of the id: an [update] that returns has written [obj] there, a
    [remove] or [pop] that returns has deleted that entry, and [pop] hands
    back the object the entry held. *)
Theorem update_remove_pop_frame self obj k s :
  (touches_only (_klass_qualname self) (_get_id self obj) s
     (snd (update self obj s)) /\
   (is_Return (fst (update self obj s)) = true ->
    entry (_klass_qualname self) (_get_id self obj) (snd (update self obj s))
    = Some (Some obj))) /\
  (touches_only (_klass_qualname self) (_get_id self obj) s
     (snd (remove self obj s)) /\
   (is_Return (fst (remove self obj s)) = true ->
    entry (_klass_qualname self) (_get_id self obj) (snd (remove self obj s))
    = Some None)) /\
  (touches_only (_klass_qualname self) k s (snd (pop self k s)) /\
   (forall popped, fst (pop self k s) = Return popped ->
    entry (_klass_qualname self) k s = Some (Some popped) /\
    entry (_klass_qualname self) k (snd (pop self k s)) = Some None)).
Proof.
  rewrite update_unfold, remove_unfold, pop_unfold.
  split; [|split].
  - destruct (super_update self obj); [split; [apply touches_only_refl|done]|].
    destruct (_REGISTERS s !! _klass_qualname self) as [bucket|] eqn:Hb;
      [|split; [apply touches_only_refl|done]].
    simpl. split.
    + apply (touches_only_write _ _ _ _ _ Hb).
      intros k' Hk'. by apply pydict_getitem_setitem_ne.
    + intros _. rewrite entry_write by done. by rewrite decide_True.
  - destruct (_REGISTERS s !! _klass_qualname self) as [bucket|] eqn:Hb;
      [|split; [apply touches_only_refl|done]].
    destruct (PyDict.getitem (_get_id self obj) bucket) eqn:Hg;
      [|split; [apply touches_only_refl|done]].
    simpl. split.
    + apply (touches_only_write _ _ _ _ _ Hb).
      intros k' Hk'. by apply pydict_getitem_delitem_ne.
    + intros _. unfold entry. simpl. rewrite lookup_insert_eq. simpl.
      by rewrite pydict_getitem_delitem_eq.
  - destruct (_REGISTERS s !! _klass_qualname self) as [bucket|] eqn:Hb;
      [|split; [apply touches_only_refl|done]].
    destruct (PyDict.getitem k bucket) eqn:Hg;
      [|split; [apply touches_only_refl|done]].
    simpl. split.
    + apply (touches_only_write _ _ _ _ _ Hb).
      intros k' Hk'. by apply pydict_getitem_delitem_ne.
    + intros popped [= <-]. split.
      * apply entry_Some. eauto.
      * unfold entry. simpl. rewrite lookup_insert_eq. simpl.
        by rewrite pydict_getitem_delitem_eq.
Qed.

(** C7, as the code has it -- per-item independence for distinct ids.  Take
    objects with pairwise distinct ids, each of whose [insert], run alone on
    the initial state, returns or raises what [batch_update] catches.  Then
    [batch_update] returns a mapping with exactly one entry per object, in
    the order of the input: the id of the object, with [True] when its
    [insert] alone returns and [False] when it raises.  The entries of that
    id in all buckets end as the [insert] of the object alone leaves them,
    and entries of other ids are untouched. *)
Theorem batch_update_independent self objs s :
  super_batch_update self objs = None ->
  NoDup (map (_get_id self) objs) ->
  Forall (fun obj => caught_or_returned (fst (insert self obj s))) objs ->
  exists s',
    batch_update self objs s
    = (Return (map (fun obj => (_get_id self obj,
                                is_Return (fst (insert self obj s)))) objs),
       s') /\
    (forall obj q, In obj objs ->
       entry q (_get_id self obj) s'
       = entry q (_get_id self obj) (snd (insert self obj s))) /\
    (forall k q, ~ In k (map (_get_id self) objs) ->
       entry q k s' = entry q k s).
Proof.
  intros Hbatch Hnd Hcaught.
  destruct (batch_update_items_independent self objs [] s Hnd Hcaught)
    as (s' & Hrun & _ & Hent & Hother).
  exists s'. split; [|by split].
  unfold batch_update, bind, call_super. rewrite Hbatch. simpl.
  rewrite Hrun. f_equal. f_equal.
  by rewrite (fold_setitem_fresh (_get_id self)
                (fun obj => is_Return (fst (insert self obj s)))).
Qed.

(** C8 -- [register_klass] is destructive and idempotent in emptiness.
    Whatever the registry held before, after [register_klass(C)] the bucket
    of [C] exists and is empty, the class is handed back, and registering
    [C] a second time leaves the very same state. *)
Theorem register_klass_resets (C : klass) s :
  fst (register_klass C s) = C /\
  _REGISTERS (snd (register_klass C s)) !! get_dotted_path C = Some [] /\
  snd (register_klass C (snd (register_klass C s))) = snd (register_klass C s).
Proof.
  unfold register_klass. simpl. split; [done|]. split.
  - apply lookup_insert_eq.
  - by rewrite insert_insert_eq.
Qed.

(** C9 -- [count] against [filter].  On a store whose bucket exists,
    [count(p)] is the length of the list [filter(p)] returns on the same
    state, and [count()] without a predicate is the number of entries of
    the bucket; neither changes the state. *)
Theorem count_is_len_filter self (p : T -> bool) s bucket :
  _REGISTERS s !! _klass_qualname self = Some bucket ->
  (exists objs,
      filter self p s = (Return objs, s) /\
      count self (Some p) s = (Return (Z.of_nat (length objs)), s)) /\
  count self None s = (Return (Z.of_nat (length bucket)), s).
Proof.
  intros Hb. split; [|by apply count_bucket].
  exists (List.filter p (PyDict.values bucket)).
  split; [by apply filter_bucket|].
  unfold count. unfold bind at 1. by rewrite (filter_bucket _ _ _ _ Hb).
Qed.

(** C10 -- the assertion of [insert] tests presence, not identity.  Take a
    store whose superclass-index entry is not empty, on a state where the
    class and the listed classes have their buckets, and an object the base
    check lets through.  Then [insert] raises the id-conflict
    [AssertionError] as soon as one listed bucket holds the id -- also when
    what it holds there is the very object being inserted -- and a second
    [insert] of the same object right after a first one always raises it. *)
Theorem insert_asserts_on_presence self obj s q0 rest :
  super_insert self obj = None ->
  is_Some (_REGISTERS s !! _klass_qualname self) ->
  _SUPER_KLASSES_WITH_REPO s !! _klass_qualname self = Some (q0 :: rest) ->
  Forall (fun q => is_Some (_REGISTERS s !! q)) (q0 :: rest) ->
  (Exists (fun q => in_bucket q (_get_id self obj) s) (q0 :: rest) ->
   fst (insert self obj s)
   = Raise (AssertionError "Id conflict in super repos")) /\
  (Exists (fun q => entry q (_get_id self obj) s = Some (Some obj)) (q0 :: rest) ->
   fst (insert self obj s)
   = Raise (AssertionError "Id conflict in super repos")) /\
  fst (insert self obj (snd (insert self obj s)))
  = Raise (AssertionError "Id conflict in super repos").
Proof.
  intros Hsuper Hown Hidx Hreg.
  assert (supers_of (_klass_qualname self) s = q0 :: rest) as Hsup
    by (unfold supers_of; by rewrite Hidx).
  assert (forall s0,
             is_Some (_REGISTERS s0 !! _klass_qualname self) ->
             supers_of (_klass_qualname self) s0 = q0 :: rest ->
             Forall (fun q => is_Some (_REGISTERS s0 !! q)) (q0 :: rest) ->
             Exists (fun q => in_bucket q (_get_id self obj) s0) (q0 :: rest) ->
             fst (insert self obj s0)
             = Raise (AssertionError "Id conflict in super repos")) as Hconflict.
  { intros s0 Hown0 Hsup0 Hreg0 Hex0.
    apply insert_conflict; rewrite ?Hsup0; done. }
  split; [|split].
  - intros Hex. by apply Hconflict.
  - intros Hex. apply Hconflict; try done.
    eapply Exists_impl; [exact Hex|]. intros q Hq.
    apply in_bucket_entry. by exists obj.
  - apply Hconflict.
    + by apply insert_registered.
    + by rewrite insert_supers_of.
    + eapply Forall_impl; [exact Hreg|]. intros q Hq.
      by apply insert_registered.
    + apply Exists_cons_hd. apply insert_head_held with rest; try done.
      by apply Forall_cons in Hreg as [? _].
Qed.

(** * Further properties *)

(** Memoisation of the superclass index.  Once a store has been constructed
    for a class, the index entry of the class stays what it was after that
    construction, whatever is constructed, registered, cleared, inserted,
    updated or removed afterwards. *)
Theorem index_entry_memoised (C : klass) (get_id : T -> Z)
    (cs : list (command T)) s :
  is_Some (_SUPER_KLASSES_WITH_REPO (snd (__init__ C get_id s))
             !! get_dotted_path C) /\
  _SUPER_KLASSES_WITH_REPO (run cs (snd (__init__ C get_id s)))
    !! get_dotted_path C
  = _SUPER_KLASSES_WITH_REPO (snd (__init__ C get_id s)) !! get_dotted_path C.
Proof.
  assert (is_Some (_SUPER_KLASSES_WITH_REPO (snd (__init__ C get_id s))
                     !! get_dotted_path C)) as [supers Hq].
  { destruct (_SUPER_KLASSES_WITH_REPO s !! get_dotted_path C) eqn:Hown.
    - eexists. by apply init_index_frozen.
    - eexists. by apply init_index_first. }
  split; [by eexists|]. rewrite Hq. by apply run_index_frozen.
Qed.

(** In every state a program can reach from a fresh process, each class
    listed in an index entry has a bucket: the loop of [insert] never meets
    a missing bucket. *)
Theorem reachable_supers_have_buckets (cs : list (command T)) q :
  Forall (fun q' => is_Some (_REGISTERS (run cs initial_state) !! q'))
         (supers_of q (run cs initial_state)).
Proof.
  apply supers_registered_Forall. apply run_supers_registered.
  intros q0 supers q' Hq. simpl in Hq. by rewrite lookup_empty in Hq.
Qed.

(** A class that has no bucket when its first store is constructed gets as
    index entry the dotted paths of its strict ancestors that have a bucket
    then, in the order of [mro()]. *)
Theorem first_index_entry_unregistered (C : klass) (get_id : T -> Z) s :
  _SUPER_KLASSES_WITH_REPO s !! get_dotted_path C = None ->
  _REGISTERS s !! get_dotted_path C = None ->
  _SUPER_KLASSES_WITH_REPO (snd (__init__ C get_id s)) !! get_dotted_path C
  = Some (map get_dotted_path
            (List.filter
               (fun A => bool_decide (is_Some (_REGISTERS s !! get_dotted_path A)))
               (ancestors C))).
Proof.
  intros Hidx Hreg. rewrite init_index_first by done.
  unfold mro. simpl. rewrite Hreg.
  rewrite bool_decide_eq_false_2; [done|]. by intros [? ?].
Qed.

(** On an id the bucket does not hold, [get_or_none] returns [None] without
    raising, [get], [remove] and [pop] raise [NotFound], and none of them
    changes the state. *)
Theorem absent_id self obj k s bucket :
  _REGISTERS s !! _klass_qualname self = Some bucket ->
  PyDict.getitem k bucket = None ->
  _get_id self obj = k ->
  get_or_none self k s = (Return None, s) /\
  (exists e, get self k s = (Raise e, s) /\ class_of e = NotFoundClass) /\
  remove self obj s = (Raise (not_found self k), s) /\
  pop self k s = (Raise (not_found self k), s).
Proof.
  intros Hb Hk Hid. split; [|split; [|split]].
  - by rewrite (get_or_none_bucket _ _ _ _ Hb), Hk.
  - rewrite (get_bucket _ _ _ _ Hb), Hk. by eexists.
  - by rewrite remove_unfold, Hb, Hid, Hk.
  - by rewrite pop_unfold, Hb, Hk.
Qed.

(** [insert] returns [True] when the base check passes, the class has its
    bucket, and the classes listed in its index entry are pairwise
    distinct, differ from the class, and have buckets that do not hold the
    id. *)
Theorem insert_returns_True self obj s :
  super_insert self obj = None ->
  is_Some (_REGISTERS s !! _klass_qualname self) ->
  NoDup (_klass_qualname self :: supers_of (_klass_qualname self) s) ->
  Forall (fun q => entry q (_get_id self obj) s = Some None)
         (supers_of (_klass_qualname self) s) ->
  exists s', insert self obj s = (Return true, s').
Proof.
  intros Hsuper Hown Hnd Hfree.
  pose proof (insert_ok self obj s Hsuper Hown Hnd Hfree) as Hok.
  destruct (insert self obj s) as [r s'] eqn:Hins. simpl in Hok. subst r.
  by exists s'.
Qed.

End Claims.

(** * Further properties, continued *)

Section Extras.
Context {T : Type} `{BaseRepository T}.
Implicit Types (self : InMemoryRepository T) (obj : T) (s : state T)
  (q : string) (k : Z).


(** The queries have no side effect: [get], [get_or_none], [all],
    [exists], [count] and [filter] hand back the state they were given,
    whether they return or raise. *)
Theorem queries_leave_state self k (p : option (T -> bool)) (f : T -> bool) s :
  snd (get self k s) = s /\
  snd (get_or_none self k s) = s /\
  snd (all self s) = s /\
  snd (exists_ self k s) = s /\
  snd (count self p s) = s /\
  snd (filter self f s) = s.
Proof.
  destruct (_REGISTERS s !! _klass_qualname self) as [bucket|] eqn:Hb.
  - rewrite (get_bucket _ _ _ _ Hb), (get_or_none_bucket _ _ _ _ Hb),
      (all_bucket _ _ _ Hb), (exists_bucket _ _ _ _ Hb),
      (filter_bucket _ _ _ _ Hb).
    repeat split; try done.
    + by destruct (PyDict.getitem k bucket).
    + destruct p as [p|]; [|by rewrite (count_bucket _ _ _ Hb)].
      unfold count. unfold bind at 1. by rewrite (filter_bucket _ _ _ _ Hb).
  - repeat split.
    + unfold get. unfold_monad. by rewrite Hb.
    + unfold get_or_none. unfold_monad. by rewrite Hb.
    + unfold all. unfold_monad. by rewrite Hb.
    + unfold exists_. unfold_monad. by rewrite Hb.
    + destruct p; unfold count, filter; unfold_monad; by rewrite Hb.
    + unfold filter. unfold_monad. by rewrite Hb.
Qed.

(** The queries agree on a bucket: [exists] says [True] exactly when
    [get_or_none] finds an object; [get] then returns that object and
    [all()] lists it; when [get_or_none] finds none, [get] raises
    [NotFound]; and [count()] is the length of [all()]. *)
Theorem queries_agree self k s bucket :
  _REGISTERS s !! _klass_qualname self = Some bucket ->
  exists (found : option T) (objs : list T),
    get_or_none self k s = (Return found, s) /\
    exists_ self k s
    = (Return (match found with Some _ => true | None => false end), s) /\
    all self s = (Return objs, s) /\
    count self None s = (Return (Z.of_nat (length objs)), s) /\
    match found with
    | Some obj => get self k s = (Return obj, s) /\ In obj objs
    | None => exists e, get self k s = (Raise e, s) /\ class_of e = NotFoundClass
    end.
Proof.
  intros Hb. exists (PyDict.getitem k bucket), (PyDict.values bucket).
  rewrite (get_bucket _ _ _ _ Hb), (get_or_none_bucket _ _ _ _ Hb),
    (all_bucket _ _ _ Hb), (exists_bucket _ _ _ _ Hb), (count_bucket _ _ _ Hb).
  split; [done|]. split; [done|]. split; [done|]. split.
  - unfold PyDict.len, PyDict.values. by rewrite length_map.
  - destruct (PyDict.getitem k bucket) as [obj|] eqn:Hg.
    + split; [done|]. by eapply pydict_getitem_In_values.
    + by eexists.
Qed.

(** For a class whose index entry is empty -- no ancestor had a bucket when
    its first store was constructed -- [insert] is [update]: same outcome,
    same state, provided the two base checks agree on the object.  In
    particular such an [insert] never raises on an id that is present: it
    replaces the object. *)
Theorem insert_is_update_without_supers self obj s :
  _SUPER_KLASSES_WITH_REPO s !! _klass_qualname self = Some [] ->
  super_insert self obj = super_update self obj ->
  insert self obj s = update self obj s.
Proof.
  intros Hidx Hbase. rewrite insert_unfold, update_unfold, <- Hbase.
  destruct (super_insert self obj); [done|].
  destruct (_REGISTERS s !! _klass_qualname self); [|done].
  unfold supers_of. by rewrite Hidx.
Qed.

(** [insert] is not atomic.  When the id is already in a listed bucket,
    [insert] raises the id-conflict [AssertionError], but only after it has
    assigned the object in the bucket of its own class: [get] through the
    same store returns the object right after the failed call. *)
Theorem insert_writes_before_asserting self obj s :
  super_insert self obj = None ->
  is_Some (_REGISTERS s !! _klass_qualname self) ->
  Forall (fun q => is_Some (_REGISTERS s !! q))
         (supers_of (_klass_qualname self) s) ->
  Exists (fun q => in_bucket q (_get_id self obj) s)
         (supers_of (_klass_qualname self) s) ->
  fst (insert self obj s) = Raise (AssertionError "Id conflict in super repos") /\
  get self (_get_id self obj) (snd (insert self obj s))
  = (Return obj, snd (insert self obj s)).
Proof.
  intros Hsuper Hown Hreg Hex. split; [by apply insert_conflict|].
  apply get_entry. by apply insert_own_written.
Qed.

(** What a [True] from [insert] tells: the base check passed, the class has
    its bucket, the classes listed in its index entry are pairwise distinct
    and differ from the class, and before the call each of them had a
    bucket that did not hold the id. *)
Theorem insert_returns_True_only_if self obj s s' :
  insert self obj s = (Return true, s') ->
  super_insert self obj = None /\
  is_Some (_REGISTERS s !! _klass_qualname self) /\
  NoDup (_klass_qualname self :: supers_of (_klass_qualname self) s) /\
  Forall (fun q => entry q (_get_id self obj) s = Some None)
         (supers_of (_klass_qualname self) s).
Proof. apply insert_returns_inv. Qed.

(** Frame of [insert].  It leaves alone every bucket other than that of its
    class and those its index entry lists; in any bucket it leaves alone
    every entry but that of the object's id; and it neither creates nor
    removes a bucket. *)
Theorem insert_frame self obj s :
  (forall q, q <> _klass_qualname self ->
             ~ In q (supers_of (_klass_qualname self) s) ->
             _REGISTERS (snd (insert self obj s)) !! q = _REGISTERS s !! q) /\
  (forall q k, k <> _get_id self obj ->
               entry q k (snd (insert self obj s)) = entry q k s) /\
  (forall q, is_Some (_REGISTERS (snd (insert self obj s)) !! q) <->
             is_Some (_REGISTERS s !! q)).
Proof.
  split; [|split].
  - intros q. apply insert_frame_buckets.
  - intros q k. apply insert_entry_other.
  - intros q. apply insert_registered.
Qed.

(** Order dependence.  An ancestor that has no bucket when the first store
    for [S] is constructed is not in the index entry of [S], and the entry
    is never recomputed: however the ancestor gets its bucket afterwards
    ([register_klass], a store of its own), no [insert] through the store of
    [S] ever writes into it. *)
Theorem late_registration_not_observed (S A : klass) (get_id : T -> Z)
    (cs : list (command T)) obj s0 :
  _SUPER_KLASSES_WITH_REPO s0 !! get_dotted_path S = None ->
  _REGISTERS s0 !! get_dotted_path A = None ->
  get_dotted_path A <> get_dotted_path S ->
  _REGISTERS (snd (insert (fst (__init__ S get_id s0)) obj
                     (run cs (snd (__init__ S get_id s0)))))
    !! get_dotted_path A
  = _REGISTERS (run cs (snd (__init__ S get_id s0))) !! get_dotted_path A.
Proof.
  intros Hfirst HA Hne. apply insert_frame_buckets; [done|].
  cbn [_klass_qualname fst __init__]. unfold supers_of.
  erewrite run_index_frozen; [|by apply init_index_first].
  cbn [from_option id]. intros Hin.
  apply in_map_iff in Hin as (c & Hc & Hin).
  apply filter_In in Hin as [_ Hreg]. apply bool_decide_eq_true_1 in Hreg.
  rewrite Hc, HA in Hreg. by destruct Hreg.
Qed.

(** [remove] undoes [insert] in the bucket of the class only.  After an
    [insert] that returned, [remove] of the same object returns and
    [exists] of the id is [False] on the store, but every bucket listed in
    the index entry still holds the object; so, when the entry is not
    empty, inserting the object again raises the id-conflict
    [AssertionError]. *)
Theorem remove_leaves_ancestors self obj s s1 :
  insert self obj s = (Return true, s1) ->
  remove self obj s1 = (Return tt, snd (remove self obj s1)) /\
  exists_ self (_get_id self obj) (snd (remove self obj s1))
  = (Return false, snd (remove self obj s1)) /\
  Forall (fun q => entry q (_get_id self obj) (snd (remove self obj s1))
                   = Some (Some obj))
         (supers_of (_klass_qualname self) s) /\
  (supers_of (_klass_qualname self) s <> [] ->
   fst (insert self obj (snd (remove self obj s1)))
   = Raise (AssertionError "Id conflict in super repos")).
Proof.
  intros Hins.
  pose proof (insert_returns_inv _ _ _ _ Hins) as (Hsuper & _ & Hnd & _).
  apply NoDup_cons in Hnd as [Hown _].
  pose proof (insert_written _ _ _ _ Hins) as Hwritten.
  apply Forall_cons in Hwritten as [Hmine Hsupers].
  assert (supers_of (_klass_qualname self) s1
          = supers_of (_klass_qualname self) s) as Hsup.
  { replace s1 with (snd (insert self obj s)) by by rewrite Hins.
    apply insert_supers_of. }
  apply entry_Some in Hmine as (bucket & Hb & Hg).
  rewrite remove_unfold, Hb, Hg. cbn [fst snd]. set (s2 := State _ _).
  assert (Forall (fun q => entry q (_get_id self obj) s2 = Some (Some obj))
                 (supers_of (_klass_qualname self) s)) as Hkept.
  { apply Forall_forall. intros q Hq.
    eapply Forall_forall in Hsupers; [|exact Hq].
    unfold entry, s2. simpl. rewrite lookup_insert_ne; [done|].
    intros <-. by apply Hown. }
  split; [done|]. split; [|split; [done|]].
  - unfold s2. erewrite exists_bucket; [|simpl; apply lookup_insert_eq].
    unfold PyDict.contains. by rewrite pydict_getitem_delitem_eq.
  - intros Hne. apply insert_conflict.
    + done.
    + unfold s2. simpl. rewrite lookup_insert_eq. by eexists.
    + replace (supers_of (_klass_qualname self) s2)
        with (supers_of (_klass_qualname self) s) by by rewrite <- Hsup.
      eapply Forall_impl; [exact Hkept|]. intros q Hq.
      apply (entry_is_Some q (_get_id self obj)). by rewrite Hq.
    + replace (supers_of (_klass_qualname self) s2)
        with (supers_of (_klass_qualname self) s) by by rewrite <- Hsup.
      destruct (supers_of (_klass_qualname self) s) as [|q0 rest]; [done|].
      apply Exists_cons_hd. apply Forall_cons in Hkept as [Hq0 _].
      apply in_bucket_entry. by exists obj.
Qed.

(** The shape of what [batch_update] hands back, once the base check on the
    batch has passed.  A mapping it returns has pairwise distinct keys,
    which are exactly the ids of the objects given -- one entry per id,
    also when several objects share one.  An exception it raises is never
    an [AssertionError] nor a [NotFound]. *)
Theorem batch_update_result_shape self objs s :
  super_batch_update self objs = None ->
  match fst (batch_update self objs s) with
  | Return result =>
      NoDup (map fst result) /\
      forall k, In k (map fst result) <-> In k (map (_get_id self) objs)
  | Raise e => class_of e <> AssertionErrorClass /\ class_of e <> NotFoundClass
  end.
Proof.
  intros Hbatch. unfold batch_update, bind, call_super. rewrite Hbatch. simpl.
  destruct (batch_update_items self objs [] s) as [[result|e] s'] eqn:Hrun;
    simpl.
  - destruct (batch_update_items_keys _ _ _ _ _ _ Hrun) as [Hnd Hkeys];
      [constructor|].
    split; [done|]. intros k. rewrite Hkeys. simpl. tauto.
  - apply batch_update_items_raises in Hrun. unfold error_classes in Hrun.
    split; intros Heq; apply Hrun; rewrite Heq; set_solver.
Qed.

(** [update] is an upsert, and [count()] tells: after an [update] the base
    check lets through, the bucket has one entry more when the id was not
    there, and as many as before when it was. *)
Theorem update_counts self obj s bucket :
  super_update self obj = None ->
  _REGISTERS s !! _klass_qualname self = Some bucket ->
  fst (update self obj s) = Return true /\
  fst (count self None (snd (update self obj s)))
  = Return (PyDict.len bucket
            + (if PyDict.contains (_get_id self obj) bucket then 0 else 1)).
Proof.
  intros Hsuper Hb. rewrite update_unfold, Hsuper, Hb. split; [done|].
  cbn [snd]. erewrite count_bucket; [|simpl; apply lookup_insert_eq].
  simpl. by rewrite pydict_len_setitem.
Qed.

(** In every state a program can reach from a fresh process, [remove] and
    [pop] of an id the bucket holds return and leave the bucket with
    exactly one entry less. *)
Theorem remove_pop_count (cs : list (command T)) self obj bucket :
  _REGISTERS (run cs initial_state) !! _klass_qualname self = Some bucket ->
  PyDict.contains (_get_id self obj) bucket = true ->
  (fst (remove self obj (run cs initial_state)) = Return tt /\
   fst (count self None (snd (remove self obj (run cs initial_state))))
   = Return (PyDict.len bucket - 1)) /\
  (is_Return (fst (pop self (_get_id self obj) (run cs initial_state))) = true /\
   fst (count self None (snd (pop self (_get_id self obj) (run cs initial_state))))
   = Return (PyDict.len bucket - 1)).
Proof.
  intros Hb Hc.
  assert (NoDup (map fst bucket)) as Hnd.
  { eapply (run_distinct_ids cs initial_state); [|exact Hb].
    apply initial_distinct_ids. }
  apply pydict_contains_getitem in Hc as Hg. destruct Hg as [found Hg].
  rewrite remove_unfold, pop_unfold, Hb, Hg. cbn [fst snd].
  split; (split; [done|]);
    (erewrite count_bucket; [|simpl; apply lookup_insert_eq]);
    simpl; by rewrite pydict_len_delitem.
Qed.

(** [_clear_all_repos] wipes the conflicts with the objects.  After it, a
    store whose class had a bucket lists nothing, and an [insert] through
    it returns [True] for any object the base check lets through -- given
    an index entry whose classes are pairwise distinct, differ from the
    class and have buckets. *)
Theorem clear_then_insert self obj s :
  super_insert self obj = None ->
  is_Some (_REGISTERS s !! _klass_qualname self) ->
  NoDup (_klass_qualname self :: supers_of (_klass_qualname self) s) ->
  Forall (fun q => is_Some (_REGISTERS s !! q))
         (supers_of (_klass_qualname self) s) ->
  all self (_clear_all_repos s) = (Return [], _clear_all_repos s) /\
  fst (insert self obj (_clear_all_repos s)) = Return true.
Proof.
  intros Hsuper [bucket Hb] Hnd Hreg.
  assert (forall q, is_Some (_REGISTERS s !! q) ->
            _REGISTERS (_clear_all_repos s) !! q = Some []) as Hclear.
  { intros q [b Hq]. unfold _clear_all_repos. simpl.
    by rewrite lookup_fmap, Hq. }
  split.
  - rewrite (all_bucket _ _ []); [done|]. apply Hclear. by eexists.
  - apply insert_ok; try done.
    + rewrite Hclear; by eexists.
    + eapply Forall_impl; [exact Hreg|]. intros q Hq.
      apply entry_Some. exists []. split; [by apply Hclear|done].
Qed.

(** In every state a program can reach from a fresh process, an [insert]
    the base check lets through has one of three outcomes: it returns
    [True], it raises [NotFound] for want of a bucket of the class, or it
    raises the id-conflict [AssertionError].  The [KeyError] of a listed
    class without bucket never shows. *)
Theorem reachable_insert_outcomes (cs : list (command T)) self obj :
  super_insert self obj = None ->
  fst (insert self obj (run cs initial_state)) = Return true \/
  fst (insert self obj (run cs initial_state)) = Raise (no_repository self) \/
  fst (insert self obj (run cs initial_state))
  = Raise (AssertionError "Id conflict in super repos").
Proof.
  intros Hsuper. apply insert_outcome; [done|].
  apply supers_registered_Forall. apply run_supers_registered.
  intros q0 supers q' Hq. simpl in Hq. by rewrite lookup_empty in Hq.
Qed.

(** No call ever removes a bucket: once a store has been constructed for a
    class, the class has its bucket in every later state, and the queries
    through that store never fail for want of it. *)
Theorem constructed_store_keeps_bucket (C : klass) (get_id : T -> Z)
    (cs : list (command T)) s :
  exists bucket,
    _REGISTERS (run cs (snd (__init__ C get_id s))) !! get_dotted_path C
    = Some bucket /\
    forall k,
      get_or_none (fst (__init__ C get_id s)) k
        (run cs (snd (__init__ C get_id s)))
      = (Return (PyDict.getitem k bucket), run cs (snd (__init__ C get_id s))).
Proof.
  destruct (run_registered cs (snd (__init__ C get_id s)) (get_dotted_path C))
    as [bucket Hb]; [apply init_own_bucket|].
  exists bucket. split; [done|]. intros k. by apply get_or_none_bucket.
Qed.

Lemma pydict_setitem_setitem {V} (k : Z) (v1 v2 : V) (d : list (Z * V)) :
  PyDict.setitem k v2 (PyDict.setitem k v1 d) = PyDict.setitem k v2 d.
Proof.
  induction d as [|[k' v'] d IH]; simpl.
  - by rewrite decide_True.
  - destruct (decide (k = k')) as [->|Hne]; simpl.
    + by rewrite decide_True.
    + rewrite decide_False by done. by rewrite IH.
Qed.

Lemma batch_update_items_sequence self objs acc s :
  Forall (fun obj => super_insert self obj = None) objs ->
  Forall (fun q => is_Some (_REGISTERS s !! q))
         (supers_of (_klass_qualname self) s) ->
  is_Return (fst (batch_update_items self objs acc s)) = true /\
  snd (batch_update_items self objs acc s) = run (map (Insert self) objs) s.
Proof.
  revert acc s. induction objs as [|obj rest IH]; intros acc s Hbase Hreg.
  { by split. }
  apply Forall_cons in Hbase as [Hobj Hbase].
  rewrite batch_update_items_cons by by apply insert_caught.
  simpl map. simpl run. apply IH; [done|].
  rewrite insert_supers_of. eapply Forall_impl; [exact Hreg|].
  intros q Hq. by apply insert_registered.
Qed.

(** On the state, [batch_update] is the sequence of its [insert]s: with
    base checks that pass and the listed classes having their buckets, it
    returns, and the state it leaves is the one left by inserting the
    objects one after the other, each failure of an [insert] leaving what
    that [insert] had written. *)
Theorem batch_update_is_sequence_of_inserts self objs s :
  super_batch_update self objs = None ->
  Forall (fun obj => super_insert self obj = None) objs ->
  Forall (fun q => is_Some (_REGISTERS s !! q))
         (supers_of (_klass_qualname self) s) ->
  is_Return (fst (batch_update self objs s)) = true /\
  snd (batch_update self objs s) = run (map (Insert self) objs) s.
Proof.
  intros Hbatch Hbase Hreg.
  unfold batch_update, bind, call_super. rewrite Hbatch. simpl.
  by apply batch_update_items_sequence.
Qed.

(** Last write wins, without trace: an [update] the base check lets through
    leaves the same state whether or not an [update] of another object with
    the same id came just before it; twice the same [update] is once. *)
Theorem update_overwrites_update self obj1 obj2 s :
  _get_id self obj1 = _get_id self obj2 ->
  super_update self obj2 = None ->
  snd (update self obj2 (snd (update self obj1 s))) = snd (update self obj2 s).
Proof.
  intros Hid Hsuper. rewrite !update_unfold, Hsuper.
  destruct (super_update self obj1); [done|].
  destruct (_REGISTERS s !! _klass_qualname self) as [bucket|] eqn:Hb;
    simpl; [|by rewrite Hb].
  rewrite lookup_insert_eq. simpl.
  by rewrite insert_insert_eq, Hid, pydict_setitem_setitem.
Qed.

End Extras.

(** * The zoo, worked out

    Each statement below is one of the theorems above at a concrete store,
    object and state, or an evaluation of the operations there. *)

(** C1, counterexample.  A [get] through a store whose class has no bucket
    and a [get] of an absent id both raise [NotFound]: same kind, not two. *)
Lemma missing_bucket_and_absent_id_same_kind :
  exists e_missing e_absent,
    fst (get dog_store 1 initial_state) = Raise e_missing /\
    fst (get dog_store 1 zoo_state) = Raise e_absent /\
    class_of e_missing = NotFoundClass /\
    class_of e_absent = NotFoundClass.
Proof. do 2 eexists. repeat split; reflexivity. Qed.

(** C1, on the zoo: the store of [Dog] on a registry without any bucket. *)
Lemma missing_bucket_raises_NotFound_zoo :
  get dog_store 1 initial_state
  = (Raise (NotFound (format _NO_REPOSITORY_MSG [ArgStr "zoo.Dog"])),
     initial_state) /\
  insert dog_store rex initial_state
  = (Raise (NotFound (format _NO_REPOSITORY_MSG [ArgStr "zoo.Dog"])),
     initial_state) /\
  pop dog_store 1 initial_state
  = (Raise (NotFound (format _NOT_FOUND_MSG [ArgId 1; ArgRepo "zoo.Dog"])),
     initial_state) /\
  pop dog_store 1 zoo_state
  = (Raise (NotFound (format _NOT_FOUND_MSG [ArgId 1; ArgRepo "zoo.Dog"])),
     zoo_state) /\
  exists result,
    batch_update dog_store [rex; laika] initial_state
    = (Return result, initial_state) /\
    PyDict.getitem 1 result = Some false /\
    PyDict.getitem 2 result = Some false.
Proof.
  assert (_REGISTERS (@initial_state animal) !! _klass_qualname dog_store = None)
    as Hb by reflexivity.
  pose proof (missing_bucket_raises_NotFound dog_store initial_state Hb)
    as ((Hget & _ & _ & _ & _ & _ & Hins & _) & (_ & Hpop) & Hbatch
        & _ & _ & Habsent).
  split; [exact (Hget 1)|]. split; [exact (Hins rex eq_refl)|].
  split; [exact (Hpop 1)|].
  split; [exact (proj1 (proj2 (Habsent zoo_state [] 1 eq_refl eq_refl)))|].
  destruct (Hbatch [rex; laika] eq_refl) as (result & Hrun & Hin & _).
  - repeat constructor.
  - exists result. split; [exact Hrun|]. split; apply Hin; simpl; tauto.
Defined.

(** C2, counterexample.  [rex] has the id [fido] already has in the bucket
    of [Animal]: [insert] raises the id-conflict [AssertionError], yet
    [batch_update] returns, with [False] for that id, and goes on to
    [laika]. *)
Lemma batch_update_returns_despite_id_conflict :
  fst (insert dog_store rex zoo_with_fido)
  = Raise (AssertionError "Id conflict in super repos") /\
  fst (batch_update dog_store [rex; laika] zoo_with_fido)
  = Return [(1, false); (2, true)].
Proof. split; reflexivity. Qed.

(** C2, on the zoo: the same batch, through the theorem. *)
Lemma batch_update_catches_id_conflict_zoo :
  exists result s',
    batch_update dog_store [rex; laika] zoo_with_fido = (Return result, s') /\
    PyDict.getitem 1 result = Some false.
Proof.
  destruct (batch_update_catches_id_conflict dog_store [rex; laika] zoo_with_fido)
    as (result & s' & Hrun & Hres).
  - reflexivity.
  - repeat constructor.
  - repeat constructor. eexists. reflexivity.
  - exists result, s'. split; [exact Hrun|].
    apply (Hres rex).
    + left. reflexivity.
    + apply Exists_cons_hd. eexists. split; reflexivity.
Defined.

(** C3, on the failing input.  [Dog] is registered before its first store is
    constructed: the index entry computed for [Dog] lists [Dog] itself, and
    every [insert] through that store then fails its own assertion. *)
Lemma registered_class_lists_itself :
  _SUPER_KLASSES_WITH_REPO registered_dog_state !! get_dotted_path Dog
  = Some [get_dotted_path Dog] /\
  fst (insert registered_dog_store rex registered_dog_state)
  = Raise (AssertionError "Id conflict in super repos").
Proof. split; reflexivity. Qed.

(** C4, counterexample.  The bucket of [Animal] exists before the first
    store for [Dog] is constructed, and holds [fido] under id 1 when [rex],
    of the same id, is inserted through the store of [Dog]: the [insert]
    raises the id-conflict [AssertionError], and the store of [Animal]
    still answers id 1 with [fido] and lists [fido] alone. *)
Lemma id_conflict_blocks_propagation :
  In Animal (ancestors Dog) /\
  is_Some (_REGISTERS (snd (__init__ Animal animal_id initial_state))
             !! get_dotted_path Animal) /\
  _SUPER_KLASSES_WITH_REPO (snd (__init__ Animal animal_id initial_state))
    !! get_dotted_path Dog = None /\
  fst (insert (fst (__init__ Dog animal_id
                      (snd (__init__ Animal animal_id initial_state)))) rex
         (run [Insert animal_store fido]
            (snd (__init__ Dog animal_id
                    (snd (__init__ Animal animal_id initial_state))))))
  = Raise (AssertionError "Id conflict in super repos") /\
  fst (get animal_store 1 (snd (insert dog_store rex zoo_with_fido)))
  = Return fido /\
  fst (all animal_store (snd (insert dog_store rex zoo_with_fido)))
  = Return [fido] /\
  fst (filter animal_store (fun a => String.eqb (animal_name a) "Rex")
         (snd (insert dog_store rex zoo_with_fido)))
  = Return [].
Proof.
  split; [by left|]. split; [by eexists|]. repeat split; reflexivity.
Qed.

(** C4, on the zoo.  A store for [Animal] exists, the first store for [Dog]
    is constructed, and [laika] goes in through the store of [Animal];
    [rex], inserted through the store of [Dog], is then found through the
    store of [Animal]. *)
Lemma insert_propagates_to_ancestor_zoo :
  get animal_store 1
    (snd (insert dog_store rex (snd (insert animal_store laika zoo_state))))
  = (Return rex,
     snd (insert dog_store rex (snd (insert animal_store laika zoo_state)))).
Proof.
  refine (proj1 (insert_propagates_to_ancestor Dog Animal animal_id animal_store
                   [Insert animal_store laika]
                   rex (snd (__init__ Animal animal_id initial_state))
                   _ _ _ _ _ _)).
  - left. reflexivity.
  - eexists. reflexivity.
  - reflexivity.
  - reflexivity.
  - vm_compute. reflexivity.
Defined.

(** C5, on the zoo: [rex] goes in through the store of [Dog] and is found
    there. *)
Lemma insert_then_get_exists_zoo :
  insert dog_store rex zoo_state
  = (Return true, snd (insert dog_store rex zoo_state)) /\
  get dog_store 1 (snd (insert dog_store rex zoo_state))
  = (Return rex, snd (insert dog_store rex zoo_state)) /\
  exists_ dog_store 1 (snd (insert dog_store rex zoo_state))
  = (Return true, snd (insert dog_store rex zoo_state)).
Proof.
  assert (insert dog_store rex zoo_state
          = (Return true, snd (insert dog_store rex zoo_state))) as Hins
    by (vm_compute; reflexivity).
  split; [exact Hins|].
  exact (insert_then_get_exists dog_store rex zoo_state _ Hins).
Defined.

(** C7, counterexample.  [rex] and [fido] share id 1.  Each inserted alone
    returns [True]; in one batch [rex] goes in, [fido] then fails on the
    entry [rex] left in the bucket of [Animal], the one entry of the mapping
    says [False], and the failed insert of [fido] has replaced [rex] in the
    bucket of [Dog]. *)
Lemma batch_update_shared_id_interferes :
  fst (insert dog_store rex zoo_state) = Return true /\
  fst (insert dog_store fido zoo_state) = Return true /\
  fst (batch_update dog_store [rex; fido] zoo_state) = Return [(1, false)] /\
  fst (get dog_store 1 (snd (batch_update dog_store [rex; fido] zoo_state)))
  = Return fido /\
  fst (get animal_store 1 (snd (batch_update dog_store [rex; fido] zoo_state)))
  = Return rex.
Proof. repeat split; reflexivity. Qed.

(** C7, on the zoo.  [rex] and [laika] have distinct ids; the bucket of
    [Animal] already holds [laika]'s: [rex] goes in, [laika] is answered
    with [False], and the bucket of [Animal] holds both. *)
Lemma batch_update_independent_zoo :
  exists s',
    batch_update dog_store [rex; laika] zoo_with_laika
    = (Return [(1, true); (2, false)], s') /\
    entry "zoo.Animal" 1 s' = Some (Some rex) /\
    entry "zoo.Animal" 2 s' = Some (Some laika).
Proof.
  destruct (batch_update_independent dog_store [rex; laika] zoo_with_laika)
    as (s' & Hrun & Hent & _).
  - reflexivity.
  - compute_done.
  - repeat constructor.
  - exists s'. split; [exact Hrun|]. split.
    + exact (Hent rex "zoo.Animal" (or_introl eq_refl)).
    + exact (Hent laika "zoo.Animal" (or_intror (or_introl eq_refl))).
Defined.

(** C8, on the zoo: registering [Animal] again empties its bucket. *)
Lemma register_klass_resets_zoo :
  _REGISTERS (snd (insert animal_store rex zoo_state)) !! "zoo.Animal"
  = Some [(1, rex)] /\
  _REGISTERS (snd (register_klass Animal (snd (insert animal_store rex zoo_state))))
    !! "zoo.Animal" = Some [].
Proof. split; reflexivity. Qed.

(** C9, on the zoo: [count] and [filter] on the store of [Animal] holding
    [laika]. *)
Lemma count_is_len_filter_zoo :
  _REGISTERS zoo_with_laika !! _klass_qualname animal_store = Some [(2, laika)] /\
  (exists objs,
      filter animal_store (fun a => String.eqb (animal_name a) "Laika")
        zoo_with_laika = (Return objs, zoo_with_laika) /\
      count animal_store (Some (fun a => String.eqb (animal_name a) "Laika"))
        zoo_with_laika = (Return (Z.of_nat (length objs)), zoo_with_laika)) /\
  count animal_store None zoo_with_laika = (Return 1, zoo_with_laika).
Proof.
  assert (_REGISTERS zoo_with_laika !! _klass_qualname animal_store
          = Some [(2, laika)]) as Hb by reflexivity.
  split; [exact Hb|].
  exact (count_is_len_filter animal_store
           (fun a => String.eqb (animal_name a) "Laika") zoo_with_laika _ Hb).
Defined.

(** C10, on the zoo: [rex] inserted twice in a row through the store of
    [Dog]. *)
Lemma insert_asserts_on_presence_zoo :
  fst (insert dog_store rex (snd (insert dog_store rex zoo_state)))
  = Raise (AssertionError "Id conflict in super repos").
Proof.
  refine (proj2 (proj2 (insert_asserts_on_presence dog_store rex zoo_state
                          "zoo.Animal" [] _ _ _ _))).
  - reflexivity.
  - eexists. reflexivity.
  - reflexivity.
  - repeat constructor. eexists. reflexivity.
Defined.

(** The index entry of [Dog] when only [Animal] is registered. *)
Lemma first_index_entry_unregistered_zoo :
  _SUPER_KLASSES_WITH_REPO
    (snd (__init__ Dog animal_id (snd (register_klass Animal initial_state))))
    !! "zoo.Dog" = Some ["zoo.Animal"].
Proof.
  exact (first_index_entry_unregistered Dog animal_id
           (snd (register_klass Animal initial_state)) eq_refl eq_refl).
Defined.

(** Id 2 is not in the bucket of [Dog]. *)
Lemma absent_id_zoo :
  get_or_none dog_store 2 zoo_state = (Return None, zoo_state) /\
  pop dog_store 2 zoo_state = (Raise (not_found dog_store 2), zoo_state).
Proof.
  pose proof (absent_id dog_store laika 2 zoo_state [] eq_refl eq_refl eq_refl)
    as (Hnone & _ & _ & Hpop).
  split; [exact Hnone | exact Hpop].
Defined.

(** [rex] can go in through the store of [Dog]. *)
Lemma insert_returns_True_zoo :
  exists s', insert dog_store rex zoo_state = (Return true, s').
Proof.
  apply insert_returns_True.
  - reflexivity.
  - eexists. reflexivity.
  - compute_done.
  - repeat constructor.
Defined.

(** The scenario of the zoo: [Animal] registered, a store for [Dog]
    constructed, [rex] inserted through it.  The store of [Animal] returns
    [rex]; the filter on the name finds him; after [remove] the bucket of
    [Dog] has lost id 1 and the bucket of [Animal] still holds it. *)
Lemma zoo_scenario :
  fst (insert dog_store rex registered_zoo_state) = Return true /\
  fst (get animal_store 1 (snd (insert dog_store rex registered_zoo_state)))
  = Return rex /\
  fst (filter dog_store (fun a => String.eqb (animal_name a) "Rex")
         (snd (insert dog_store rex registered_zoo_state))) = Return [rex] /\
  fst (exists_ dog_store 1
         (snd (remove dog_store rex
                 (snd (insert dog_store rex registered_zoo_state)))))
  = Return false /\
  fst (get animal_store 1
         (snd (remove dog_store rex
                 (snd (insert dog_store rex registered_zoo_state)))))
  = Return rex.
Proof. repeat split; reflexivity. Qed.

(** The queries on the store of [Animal] holding [laika]. *)
Lemma queries_agree_zoo :
  exists found objs,
    get_or_none animal_store 2 zoo_with_laika = (Return found, zoo_with_laika) /\
    exists_ animal_store 2 zoo_with_laika
    = (Return (match found with Some _ => true | None => false end),
       zoo_with_laika) /\
    all animal_store zoo_with_laika = (Return objs, zoo_with_laika) /\
    count animal_store None zoo_with_laika
    = (Return (Z.of_nat (length objs)), zoo_with_laika) /\
    match found with
    | Some obj =>
        get animal_store 2 zoo_with_laika = (Return obj, zoo_with_laika) /\
        In obj objs
    | None =>
        exists e, get animal_store 2 zoo_with_laika = (Raise e, zoo_with_laika) /\
                  class_of e = NotFoundClass
    end.
Proof.
  exact (queries_agree animal_store 2 zoo_with_laika [(2, laika)] eq_refl).
Defined.

(** The index entry of [Animal] is empty: [insert] through its store is
    [update], also on an id that is there. *)
Lemma insert_is_update_without_supers_zoo :
  insert animal_store fido zoo_with_fido = update animal_store fido zoo_with_fido /\
  fst (insert animal_store fido zoo_with_fido) = Return true.
Proof.
  split; [|reflexivity].
  exact (insert_is_update_without_supers animal_store fido zoo_with_fido
           eq_refl eq_refl).
Defined.

(** [rex] through the store of [Dog], the bucket of [Animal] holding
    [fido] under the same id: the call raises and [rex] is in the bucket
    of [Dog]. *)
Lemma insert_writes_before_asserting_zoo :
  fst (insert dog_store rex zoo_with_fido)
  = Raise (AssertionError "Id conflict in super repos") /\
  get dog_store 1 (snd (insert dog_store rex zoo_with_fido))
  = (Return rex, snd (insert dog_store rex zoo_with_fido)).
Proof.
  apply (insert_writes_before_asserting dog_store rex zoo_with_fido).
  - reflexivity.
  - eexists. reflexivity.
  - repeat constructor. eexists. reflexivity.
  - apply Exists_cons_hd. eexists. split; reflexivity.
Defined.

(** What the [True] of inserting [rex] through the store of [Dog] tells. *)
Lemma insert_returns_True_only_if_zoo :
  NoDup ("zoo.Dog" :: supers_of "zoo.Dog" zoo_state) /\
  Forall (fun q => entry q 1 zoo_state = Some None) (supers_of "zoo.Dog" zoo_state).
Proof.
  assert (insert dog_store rex zoo_state
          = (Return true, snd (insert dog_store rex zoo_state))) as Hins
    by (vm_compute; reflexivity).
  exact (proj2 (proj2 (insert_returns_True_only_if dog_store rex zoo_state _ Hins))).
Defined.

(** The store of [Dog] is constructed in a fresh process; [Animal] is
    registered, and gets a store, only afterwards: [rex], inserted through
    the store of [Dog], does not reach the bucket of [Animal]. *)
Lemma late_registration_not_observed_zoo :
  _REGISTERS
    (snd (insert dog_store rex
            (run [RegisterKlass Animal; Construct Animal animal_id]
               (snd (__init__ Dog animal_id initial_state)))))
    !! "zoo.Animal" = Some [].
Proof.
  rewrite (late_registration_not_observed Dog Animal animal_id
             [RegisterKlass Animal; Construct Animal animal_id] rex
             initial_state eq_refl eq_refl).
  - reflexivity.
  - discriminate.
Defined.

(** [rex] inserted, then removed, through the store of [Dog]: gone from
    the bucket of [Dog], still in the bucket of [Animal], and not to be
    inserted again. *)
Lemma remove_leaves_ancestors_zoo :
  exists_ dog_store 1
    (snd (remove dog_store rex (snd (insert dog_store rex zoo_state))))
  = (Return false,
     snd (remove dog_store rex (snd (insert dog_store rex zoo_state)))) /\
  entry "zoo.Animal" 1
    (snd (remove dog_store rex (snd (insert dog_store rex zoo_state))))
  = Some (Some rex) /\
  fst (insert dog_store rex
         (snd (remove dog_store rex (snd (insert dog_store rex zoo_state)))))
  = Raise (AssertionError "Id conflict in super repos").
Proof.
  assert (insert dog_store rex zoo_state
          = (Return true, snd (insert dog_store rex zoo_state))) as Hins
    by (vm_compute; reflexivity).
  destruct (remove_leaves_ancestors dog_store rex zoo_state _ Hins)
    as (_ & Hexists & Hkept & Hagain).
  split; [exact Hexists|]. split.
  - exact (proj1 (proj1 (Forall_cons _ _ _) Hkept)).
  - apply Hagain. discriminate.
Defined.

(** Two objects sharing id 1 in one batch: one entry. *)
Lemma batch_update_result_shape_zoo :
  match fst (batch_update dog_store [rex; fido] zoo_state) with
  | Return result =>
      NoDup (map fst result) /\
      forall k, In k (map fst result) <-> In k [1; 1]
  | Raise e => class_of e <> AssertionErrorClass /\ class_of e <> NotFoundClass
  end.
Proof.
  exact (batch_update_result_shape dog_store [rex; fido] zoo_state eq_refl).
Defined.

(** [update] of [laika] on the store of [Animal]: a second entry beside
    [fido], the same one entry when [laika] is there already. *)
Lemma update_counts_zoo :
  fst (count animal_store None (snd (update animal_store laika zoo_with_fido)))
  = Return 2 /\
  fst (count animal_store None (snd (update animal_store laika zoo_with_laika)))
  = Return 1.
Proof.
  split.
  - exact (proj2 (update_counts animal_store laika zoo_with_fido [(1, fido)]
                    eq_refl eq_refl)).
  - exact (proj2 (update_counts animal_store laika zoo_with_laika [(2, laika)]
                    eq_refl eq_refl)).
Defined.

(** [laika] removed from the store of [Animal] that holds her alone. *)
Lemma remove_pop_count_zoo :
  fst (remove animal_store laika
         (run [Construct Animal animal_id; Insert animal_store laika]
            initial_state)) = Return tt /\
  fst (count animal_store None
         (snd (remove animal_store laika
                 (run [Construct Animal animal_id; Insert animal_store laika]
                    initial_state)))) = Return 0.
Proof.
  exact (proj1 (remove_pop_count
                  [Construct Animal animal_id; Insert animal_store laika]
                  animal_store laika [(2, laika)] eq_refl eq_refl)).
Defined.

(** After [_clear_all_repos] the conflict on id 1 is gone. *)
Lemma clear_then_insert_zoo :
  fst (insert dog_store rex zoo_with_fido)
  = Raise (AssertionError "Id conflict in super repos") /\
  all animal_store (_clear_all_repos zoo_with_fido)
  = (Return [], _clear_all_repos zoo_with_fido) /\
  fst (insert dog_store rex (_clear_all_repos zoo_with_fido)) = Return true.
Proof.
  split; [reflexivity|]. split.
  - refine (proj1 (clear_then_insert animal_store rex zoo_with_fido _ _ _ _)).
    + reflexivity.
    + eexists. reflexivity.
    + compute_done.
    + constructor.
  - refine (proj2 (clear_then_insert dog_store rex zoo_with_fido _ _ _ _)).
    + reflexivity.
    + eexists. reflexivity.
    + compute_done.
    + repeat constructor. eexists. reflexivity.
Defined.

(** Inserting [rex] once more through the store of [Dog], reached from a
    fresh process. *)
Lemma reachable_insert_outcomes_zoo :
  fst (insert dog_store rex
         (run [Construct Animal animal_id; Construct Dog animal_id;
               Insert dog_store rex] initial_state)) = Return true \/
  fst (insert dog_store rex
         (run [Construct Animal animal_id; Construct Dog animal_id;
               Insert dog_store rex] initial_state))
  = Raise (no_repository dog_store) \/
  fst (insert dog_store rex
         (run [Construct Animal animal_id; Construct Dog animal_id;
               Insert dog_store rex] initial_state))
  = Raise (AssertionError "Id conflict in super repos").
Proof.
  exact (reachable_insert_outcomes
           [Construct Animal animal_id; Construct Dog animal_id;
            Insert dog_store rex] dog_store rex eq_refl).
Defined.

(** The batch of [rex] and [laika] against inserting them in turn. *)
Lemma batch_update_is_sequence_of_inserts_zoo :
  snd (batch_update dog_store [rex; laika] zoo_with_fido)
  = snd (insert dog_store laika (snd (insert dog_store rex zoo_with_fido))).
Proof.
  refine (proj2 (batch_update_is_sequence_of_inserts dog_store [rex; laika]
                   zoo_with_fido _ _ _)).
  - reflexivity.
  - repeat constructor.
  - repeat constructor. eexists. reflexivity.
Defined.

(** [fido] then [rex], both id 1, on the store of [Animal]: as if [rex]
    alone. *)
Lemma update_overwrites_update_zoo :
  snd (update animal_store rex (snd (update animal_store fido zoo_state)))
  = snd (update animal_store rex zoo_state).
Proof.
  exact (update_overwrites_update animal_store fido rex zoo_state
           eq_refl eq_refl).
Defined.
